(** * banking-shared-go: resilient Kafka producer and consumer

    A shallow embedding of the producer and the consumer of package
    [kafka], together with the two behaviours they delegate to: the
    [github.com/sony/gobreaker] state machine that gates every send, and
    the offset bookkeeping of a [sarama] consumer-group session.  Both
    packages are dependencies of the repository; their definitions here
    follow the packages' own code.  The topics of package [events] and
    the validators of package [validators] follow.

    Conventions.
    - Go's [(value, error)] results are [result]; a lone [error] result is
      [option error] with [None] for [nil].
    - [time.Now()] is an oracle: a [Clock] hands out its readings in order.
    - Unsigned counters and [int64] sums are [Z] with the wrap-around
      written out.
    - Mutable objects reached through pointers (transport, logger) are
      threaded explicitly. *)

From Stdlib Require Import ZArith QArith.QArith_base Lia.
From stdpp Require Import gmap strings list.

Local Open Scope string_scope.
Local Open Scope list_scope.
Local Open Scope Z_scope.

(** ** Errors *)

(** [errors.New] and [fmt.Errorf] with a [%w] verb.  A wrapping error
    stores its whole formatted text and the error it wraps. *)
Inductive error : Type :=
| errorString (s : string)
| wrapError (msg : string) (err : error).

#[global] Instance error_eq_dec : EqDecision error.
Proof. solve_decision. Defined.

Definition Error (e : error) : string :=
  match e with
  | errorString s => s
  | wrapError msg _ => msg
  end.

Definition Unwrap (e : error) : option error :=
  match e with
  | errorString _ => None
  | wrapError _ err => Some err
  end.

(** [fmt.Errorf(prefix + "%w", err)]. *)
Definition Errorf_w (prefix : string) (err : error) : error :=
  wrapError (prefix +:+ Error err) err.

(** [errors.Is]: walk the [Unwrap] chain. *)
Fixpoint Is (err target : error) : bool :=
  if decide (err = target) then true
  else match err with
       | errorString _ => false
       | wrapError _ inner => Is inner target
       end.

Inductive result (A : Type) : Type :=
| Ok (a : A)
| Err (e : error).
Arguments Ok {A} a.
Arguments Err {A} e.

(** ** Time *)

Module time.
Definition Time := Z.
Definition Duration := Z.
Definition Nanosecond : Duration := 1.
Definition Millisecond : Duration := 1000000.
Definition Second : Duration := 1000000000.
End time.

(** The wall clock: the [n]-th call of [time.Now()] returns
    [readings n]. *)
Record Clock : Type := mkClock {
  readings : nat -> Z;
  ticks : nat
}.

Definition Now (clk : Clock) : Z * Clock :=
  (readings clk (ticks clk), mkClock (readings clk) (S (ticks clk))).

(** ** Logging (zap) *)

Inductive Level : Type := DebugLevel | InfoLevel | WarnLevel | ErrorLevel.

Inductive Field : Type :=
| zap_String (key val : string)
| zap_Strings (key : string) (vals : list string)
| zap_Int32 (key : string) (val : Z)
| zap_Int64 (key : string) (val : Z)
| zap_Error (err : error).

Record Entry : Type := mkEntry {
  level : Level;
  message : string;
  fields : list Field
}.

(** A logger is the list of records written so far, oldest first. *)
Definition Logger := list Entry.

Definition write (lvl : Level) (msg : string) (fs : list Field) (l : Logger) : Logger :=
  l ++ [mkEntry lvl msg fs].

(** ** The circuit breaker (github.com/sony/gobreaker)

    The producer builds its breaker with [gobreaker.NewCircuitBreaker] and
    sends through [Execute]; the definitions below follow that package
    function by function.  [W] is whatever the callbacks and the gated
    request act on. *)

Module gobreaker.

Inductive State : Type := StateClosed | StateHalfOpen | StateOpen.

#[global] Instance State_eq_dec : EqDecision State.
Proof. solve_decision. Defined.

Definition State_String (s : State) : string :=
  match s with
  | StateClosed => "closed"
  | StateHalfOpen => "half-open"
  | StateOpen => "open"
  end.

Definition ErrTooManyRequests : error := errorString "too many requests".
Definition ErrOpenState : error := errorString "circuit breaker is open".

Definition uint32 (z : Z) : Z := z mod 2 ^ 32.
Definition uint64 (z : Z) : Z := z mod 2 ^ 64.

Record Counts : Type := mkCounts {
  Requests : Z;
  TotalSuccesses : Z;
  TotalFailures : Z;
  ConsecutiveSuccesses : Z;
  ConsecutiveFailures : Z
}.

#[global] Instance Counts_eq_dec : EqDecision Counts.
Proof. solve_decision. Defined.

Definition Counts_onRequest (c : Counts) : Counts :=
  mkCounts (uint32 (Requests c + 1)) (TotalSuccesses c) (TotalFailures c)
           (ConsecutiveSuccesses c) (ConsecutiveFailures c).

Definition Counts_onSuccess (c : Counts) : Counts :=
  mkCounts (Requests c) (uint32 (TotalSuccesses c + 1)) (TotalFailures c)
           (uint32 (ConsecutiveSuccesses c + 1)) 0.

Definition Counts_onFailure (c : Counts) : Counts :=
  mkCounts (Requests c) (TotalSuccesses c) (uint32 (TotalFailures c + 1))
           0 (uint32 (ConsecutiveFailures c + 1)).

Definition Counts_clear : Counts := mkCounts 0 0 0 0 0.

Definition defaultInterval : time.Duration := 0.
Definition defaultTimeout : time.Duration := 60 * time.Second.
Definition defaultReadyToTrip (c : Counts) : bool := 5 <? ConsecutiveFailures c.

Section Breaker.
Context {W : Type}.

Record Settings : Type := mkSettings {
  Name : string;
  MaxRequests : Z;
  Interval : time.Duration;
  Timeout : time.Duration;
  ReadyToTrip : option (Counts -> bool);
  OnStateChange : option (string -> State -> State -> W -> W)
}.

(** [expiry] is [None] for the zero [time.Time]. *)
Record CircuitBreaker : Type := mkCB {
  name : string;
  maxRequests : Z;
  interval : time.Duration;
  timeout : time.Duration;
  readyToTrip : Counts -> bool;
  onStateChange : option (string -> State -> State -> W -> W);
  state : State;
  generation : Z;
  counts : Counts;
  expiry : option time.Time
}.

Definition with_gen (cb : CircuitBreaker) (g : Z) (c : Counts)
           (e : option time.Time) : CircuitBreaker :=
  mkCB (name cb) (maxRequests cb) (interval cb) (timeout cb)
       (readyToTrip cb) (onStateChange cb) (state cb) g c e.

Definition with_state (cb : CircuitBreaker) (s : State) : CircuitBreaker :=
  mkCB (name cb) (maxRequests cb) (interval cb) (timeout cb)
       (readyToTrip cb) (onStateChange cb) s (generation cb) (counts cb)
       (expiry cb).

Definition with_counts (cb : CircuitBreaker) (c : Counts) : CircuitBreaker :=
  with_gen cb (generation cb) c (expiry cb).

Definition toNewGeneration (cb : CircuitBreaker) (now : time.Time) : CircuitBreaker :=
  with_gen cb (uint64 (generation cb + 1)) Counts_clear
    match state cb with
    | StateClosed => if interval cb =? 0 then None else Some (now + interval cb)
    | StateOpen => Some (now + timeout cb)
    | StateHalfOpen => None
    end.

Definition setState (cb : CircuitBreaker) (st : State) (now : time.Time)
           (w : W) : CircuitBreaker * W :=
  if decide (state cb = st) then (cb, w)
  else
    let prev := state cb in
    let cb' := toNewGeneration (with_state cb st) now in
    match onStateChange cb with
    | Some f => (cb', f (name cb) prev st w)
    | None => (cb', w)
    end.

(** [expiry.Before(now)]. *)
Definition Before (e now : time.Time) : bool := e <? now.

Definition currentState (cb : CircuitBreaker) (now : time.Time) (w : W)
  : CircuitBreaker * W :=
  match state cb with
  | StateClosed =>
      match expiry cb with
      | Some e => if Before e now then (toNewGeneration cb now, w) else (cb, w)
      | None => (cb, w)
      end
  | StateOpen =>
      match expiry cb with
      | Some e => if Before e now then setState cb StateHalfOpen now w else (cb, w)
      | None => setState cb StateHalfOpen now w
      end
  | StateHalfOpen => (cb, w)
  end.

Definition NewCircuitBreaker (st : Settings) (clk : Clock) : CircuitBreaker * Clock :=
  let '(now, clk) := Now clk in
  let cb :=
    mkCB (Name st)
         (if MaxRequests st =? 0 then 1 else MaxRequests st)
         (if Interval st <=? 0 then defaultInterval else Interval st)
         (if Timeout st <=? 0 then defaultTimeout else Timeout st)
         (match ReadyToTrip st with Some f => f | None => defaultReadyToTrip end)
         (OnStateChange st)
         StateClosed 0 Counts_clear None in
  (toNewGeneration cb now, clk).

(** Returns the generation the request belongs to, or the reason it
    is refused. *)
Definition beforeRequest (cb : CircuitBreaker) (clk : Clock) (w : W)
  : CircuitBreaker * Clock * W * result Z :=
  let '(now, clk) := Now clk in
  let '(cb, w) := currentState cb now w in
  if decide (state cb = StateOpen) then
    (cb, clk, w, Err ErrOpenState)
  else if bool_decide (state cb = StateHalfOpen) && (maxRequests cb <=? Requests (counts cb)) then
    (cb, clk, w, Err ErrTooManyRequests)
  else
    (with_counts cb (Counts_onRequest (counts cb)), clk, w, Ok (generation cb)).

Definition onSuccess (cb : CircuitBreaker) (st : State) (now : time.Time) (w : W)
  : CircuitBreaker * W :=
  match st with
  | StateClosed => (with_counts cb (Counts_onSuccess (counts cb)), w)
  | StateHalfOpen =>
      let cb := with_counts cb (Counts_onSuccess (counts cb)) in
      if maxRequests cb <=? ConsecutiveSuccesses (counts cb)
      then setState cb StateClosed now w
      else (cb, w)
  | StateOpen => (cb, w)
  end.

Definition onFailure (cb : CircuitBreaker) (st : State) (now : time.Time) (w : W)
  : CircuitBreaker * W :=
  match st with
  | StateClosed =>
      let cb := with_counts cb (Counts_onFailure (counts cb)) in
      if readyToTrip cb (counts cb)
      then setState cb StateOpen now w
      else (cb, w)
  | StateHalfOpen => setState cb StateOpen now w
  | StateOpen => (cb, w)
  end.

Definition afterRequest (cb : CircuitBreaker) (before : Z) (success : bool)
           (clk : Clock) (w : W) : CircuitBreaker * Clock * W :=
  let '(now, clk) := Now clk in
  let '(cb, w) := currentState cb now w in
  if decide (generation cb = before) then
    let '(cb, w) :=
      if success then onSuccess cb (state cb) now w
      else onFailure cb (state cb) now w in
    (cb, clk, w)
  else (cb, clk, w).

(** [Execute] with the default [IsSuccessful] ([err == nil]).  The
    request is a state transformer on [W] that does not itself read
    the clock; a panicking request is outside the model. *)
Definition Execute {R : Type} (cb : CircuitBreaker)
           (req : W -> W * result R) (clk : Clock) (w : W)
  : CircuitBreaker * Clock * W * result R :=
  match beforeRequest cb clk w with
  | (cb, clk, w, Err e) => (cb, clk, w, Err e)
  | (cb, clk, w, Ok g) =>
      let '(w, r) := req w in
      let '(cb, clk, w) :=
        afterRequest cb g (match r with Ok _ => true | Err _ => false end) clk w in
      (cb, clk, w, r)
  end.

(** [State]: like every method it first brings the breaker up to date
    with the clock, so a call can start a new window of a closed
    breaker or move an open breaker to half-open. *)
Definition CircuitBreaker_State (cb : CircuitBreaker) (clk : Clock) (w : W)
  : CircuitBreaker * Clock * W * State :=
  let '(now, clk) := Now clk in
  let '(cb, w) := currentState cb now w in
  (cb, clk, w, state cb).

End Breaker.

Arguments Settings : clear implicits.
Arguments CircuitBreaker : clear implicits.

End gobreaker.

(** ** The transport (github.com/IBM/sarama), as far as the code uses it *)

Module sarama.

(** [RequiredAcks] (int16) and [CompressionCodec] (int8). *)
Definition RequiredAcks := Z.
Definition NoResponse : RequiredAcks := 0.
Definition WaitForLocal : RequiredAcks := 1.
Definition WaitForAll : RequiredAcks := -1.

Inductive CompressionCodec : Type :=
| CompressionNone | CompressionGZIP | CompressionSnappy | CompressionLZ4 | CompressionZSTD.

Definition OffsetNewest : Z := -1.
Definition OffsetOldest : Z := -2.

Inductive BalanceStrategy : Type :=
| BalanceStrategyRange | BalanceStrategyRoundRobin | BalanceStrategySticky.

(** The fields of [sarama.Config] that this repository reads or writes. *)
Record Config : Type := mkConfig {
  ClientID : string;
  Net_MaxOpenRequests : Z;
  Producer_RequiredAcks : RequiredAcks;
  Producer_Retry_Max : Z;
  Producer_Flush_Frequency : time.Duration;
  Producer_Flush_Messages : Z;
  Producer_Compression : CompressionCodec;
  Producer_Return_Successes : bool;
  Producer_Return_Errors : bool;
  Producer_Idempotent : bool;
  Consumer_Group_Rebalance_GroupStrategies : list BalanceStrategy;
  Consumer_Offsets_Initial : Z;
  Consumer_Return_Errors : bool
}.

Record RecordHeader : Type := mkHeader {
  Header_Key : string;
  Header_Value : string
}.

Record ProducerMessage : Type := mkProducerMessage {
  msg_Topic : string;
  msg_Key : string;
  msg_Value : string;
  msg_Headers : list RecordHeader
}.

(** The [SyncProducer] interface.  [SendMessage] yields the partition and
    the offset of the stored record, or the transport's error. *)
Class SyncProducer (T : Type) : Type := {
  SendMessage : ProducerMessage -> T -> T * result (Z * Z);
  Close : T -> T * option error
}.

(** A transport whose answers are given in advance: the [n]-th send is
    answered by [outcome n].  It counts the sends it has seen and keeps
    the records it has accepted, in order. *)
Record Broker : Type := mkBroker {
  outcome : nat -> result (Z * Z);
  calls : nat;
  delivered : list ProducerMessage;
  closed : bool
}.

Definition Broker_SendMessage (msg : ProducerMessage) (b : Broker)
  : Broker * result (Z * Z) :=
  match outcome b (calls b) with
  | Ok po => (mkBroker (outcome b) (S (calls b)) (delivered b ++ [msg]) (closed b), Ok po)
  | Err e => (mkBroker (outcome b) (S (calls b)) (delivered b) (closed b), Err e)
  end.

Definition Broker_Close (b : Broker) : Broker * option error :=
  (mkBroker (outcome b) (calls b) (delivered b) true, None).

#[global] Instance Broker_SyncProducer : SyncProducer Broker :=
  {| SendMessage := Broker_SendMessage; Close := Broker_Close |}.

(** *** Consumer side *)

Record ConsumerMessage : Type := mkConsumerMessage {
  Topic : string;
  Partition : Z;
  Offset : Z;
  cm_Key : string;
  cm_Value : string
}.

(** A consumer-group session, reduced to what a claim loop touches: for
    every claimed topic/partition the offset marked for commit, that is
    the offset of the next record to read after a restart.  Partitions
    that are not claimed have no entry. *)
Record ConsumerGroupSession : Type := mkSession {
  marked : gmap (string * Z) Z
}.

(** [MarkOffset]: only ever moves the mark of a claimed partition
    forward. *)
Definition MarkOffset (topic : string) (partition offset : Z)
           (s : ConsumerGroupSession) : ConsumerGroupSession :=
  match marked s !! (topic, partition) with
  | Some cur =>
      if cur <? offset then mkSession (<[(topic, partition) := offset]> (marked s))
      else s
  | None => s
  end.

(** Go's [int64]: two's complement, wrapping around. *)
Definition int64 (z : Z) : Z := (z + 2 ^ 63) mod 2 ^ 64 - 2 ^ 63.

(** [MarkMessage(msg, metadata)] is [MarkOffset] at [msg.Offset + 1],
    an [int64] sum. *)
Definition MarkMessage (msg : ConsumerMessage) (s : ConsumerGroupSession)
  : ConsumerGroupSession :=
  MarkOffset (Topic msg) (Partition msg) (int64 (Offset msg + 1)) s.

End sarama.

(** ** Tracing (go.opentelemetry.io/otel)

    Only the trace identifier of a span reaches the wire.  A context
    carries the identifier of its active span, if any; a span started in
    such a context inherits it, a root span draws a new one. *)

Record Tracer : Type := mkTracer {
  newTraceID : nat -> string;
  started : nat
}.

Definition Context := option string.

Definition Tracer_Start (ctx : Context) (tr : Tracer) : Context * string * Tracer :=
  match ctx with
  | Some tid => (Some tid, tid, mkTracer (newTraceID tr) (S (started tr)))
  | None =>
      let tid := newTraceID tr (started tr) in
      (Some tid, tid, mkTracer (newTraceID tr) (S (started tr)))
  end.

(** ** The producer (package kafka) *)

Module producer.

Import gobreaker.

Record ProducerConfig : Type := mkProducerConfig {
  Brokers : list string;
  ClientID : string;
  RequiredAcks : sarama.RequiredAcks;
  RetryMax : Z;
  FlushFrequency : time.Duration;
  FlushMessages : Z;
  CompressionType : sarama.CompressionCodec
}.

Definition DefaultProducerConfig (brokers : list string) (clientID : string)
  : ProducerConfig :=
  {| Brokers := brokers;
     ClientID := clientID;
     RequiredAcks := sarama.WaitForAll;
     RetryMax := 5;
     FlushFrequency := 100 * time.Millisecond;
     FlushMessages := 100;
     CompressionType := sarama.CompressionGZIP |}.

(** The [Event] interface: a partition key.  [json.Marshal(event)] is
    carried along as its outcome, the encoded body or the encoder's
    error. *)
Record Event : Type := mkEvent {
  Key : string;
  json_Marshal : result string
}.

(** The [ReadyToTrip] closure of [NewProducer].  The ratio is the exact
    quotient; for 32-bit counters the float64 quotient compares with the
    float64 constant 0.6 the same way, because two distinct ratios with
    denominators below 2^32 are more than an ulp apart and 3/5 rounds to
    the constant itself.  With [Requests = 0] the quotient is NaN or +Inf
    in Go and the first conjunct already decides. *)
Definition ReadyToTrip (counts : Counts) : bool :=
  let failureRatio := Qmake (TotalFailures counts) (Z.to_pos (Requests counts)) in
  (3 <=? Requests counts) && Qle_bool (Qmake 6 10) failureRatio.

Section Producer.
Context {T : Type} `{!sarama.SyncProducer T}.

(** What the breaker's request and callback reach through the
    producer's pointers: the transport and the logger. *)
Definition Wires : Type := T * Logger.

Record Producer : Type := mkProducer {
  producer : T;
  cb : CircuitBreaker Wires;
  logger : Logger;
  tracer : Tracer
}.

Definition OnStateChange (name : string) (from to : State) (w : Wires) : Wires :=
  (fst w,
   write WarnLevel "Circuit breaker state change"
         [zap_String "name" name;
          zap_String "from" (State_String from);
          zap_String "to" (State_String to)] (snd w)).

Definition cbSettings : Settings Wires :=
  {| Name := "kafka-producer";
     MaxRequests := 3;
     Interval := 10 * time.Second;
     Timeout := 30 * time.Second;
     gobreaker.ReadyToTrip := Some ReadyToTrip;
     gobreaker.OnStateChange := Some OnStateChange |}.

(** The [sarama.Config] that [NewProducer] hands to
    [sarama.NewSyncProducer], built on the library's defaults. *)
Definition producerSaramaConfig (defaults : sarama.Config) (cfg : ProducerConfig)
  : sarama.Config :=
  {| sarama.ClientID := ClientID cfg;
     sarama.Net_MaxOpenRequests := 1;
     sarama.Producer_RequiredAcks := RequiredAcks cfg;
     sarama.Producer_Retry_Max := RetryMax cfg;
     sarama.Producer_Flush_Frequency := FlushFrequency cfg;
     sarama.Producer_Flush_Messages := FlushMessages cfg;
     sarama.Producer_Compression := CompressionType cfg;
     sarama.Producer_Return_Successes := true;
     sarama.Producer_Return_Errors := true;
     sarama.Producer_Idempotent := true;
     sarama.Consumer_Group_Rebalance_GroupStrategies :=
       sarama.Consumer_Group_Rebalance_GroupStrategies defaults;
     sarama.Consumer_Offsets_Initial := sarama.Consumer_Offsets_Initial defaults;
     sarama.Consumer_Return_Errors := sarama.Consumer_Return_Errors defaults |}.

(** [sarama.NewConfig()], [sarama.NewSyncProducer] and [otel.Tracer]
    belong to the libraries; they are taken as given. *)
Context (sarama_NewConfig : sarama.Config)
        (sarama_NewSyncProducer : list string -> sarama.Config -> result T)
        (otel_Tracer : string -> Tracer).

Definition NewProducer (cfg : ProducerConfig) (logger : Logger) (clk : Clock)
  : result Producer * Clock :=
  let config := producerSaramaConfig sarama_NewConfig cfg in
  match sarama_NewSyncProducer (Brokers cfg) config with
  | Err err => (Err (Errorf_w "failed to create kafka producer: " err), clk)
  | Ok producer =>
      let '(cb, clk) := NewCircuitBreaker cbSettings clk in
      (Ok (mkProducer producer cb logger (otel_Tracer "banking-shared/kafka")), clk)
  end.

Definition outbound (topic : string) (event : Event) (payload traceID : string)
  : sarama.ProducerMessage :=
  {| sarama.msg_Topic := topic;
     sarama.msg_Key := Key event;
     sarama.msg_Value := payload;
     sarama.msg_Headers :=
       [sarama.mkHeader "content-type" "application/json";
        sarama.mkHeader "trace-id" traceID] |}.

(** The closure handed to [cb.Execute]. *)
Definition send (topic : string) (msg : sarama.ProducerMessage) (w : Wires)
  : Wires * result unit :=
  match sarama.SendMessage msg (fst w) with
  | (t, Err err) => ((t, snd w), Err err)
  | (t, Ok (partition, offset)) =>
      ((t, write DebugLevel "Message sent"
                 [zap_String "topic" topic;
                  zap_Int32 "partition" partition;
                  zap_Int64 "offset" offset] (snd w)),
       Ok tt)
  end.

Definition Publish (ctx : Context) (topic : string) (event : Event)
           (p : Producer) (clk : Clock) : Producer * Clock * option error :=
  let '(ctx, traceID, tracer) := Tracer_Start ctx (tracer p) in
  match json_Marshal event with
  | Err err =>
      (mkProducer (producer p) (cb p) (logger p) tracer, clk,
       Some (Errorf_w "failed to marshal event: " err))
  | Ok payload =>
      let msg := outbound topic event payload traceID in
      let '(cb, clk, w, r) :=
        Execute (cb p) (send topic msg) clk (producer p, logger p) in
      match r with
      | Err err =>
          (mkProducer (fst w) cb
             (write ErrorLevel "Failed to publish message"
                    [zap_String "topic" topic; zap_Error err] (snd w))
             tracer,
           clk,
           Some (Errorf_w ("failed to publish to " +:+ topic +:+ ": ") err))
      | Ok _ => (mkProducer (fst w) cb (snd w) tracer, clk, None)
      end
  end.

(** The [for _, event := range events] loop of [PublishBatch]. *)
Fixpoint PublishBatch_range (ctx : Context) (topic : string) (events : list Event)
         (p : Producer) (clk : Clock) : Producer * Clock * option error :=
  match events with
  | [] => (p, clk, None)
  | event :: events =>
      match Publish ctx topic event p clk with
      | (p, clk, Some err) => (p, clk, Some err)
      | (p, clk, None) => PublishBatch_range ctx topic events p clk
      end
  end.

Definition PublishBatch (ctx : Context) (topic : string) (events : list Event)
           (p : Producer) (clk : Clock) : Producer * Clock * option error :=
  let '(ctx, _, tracer) := Tracer_Start ctx (tracer p) in
  PublishBatch_range ctx topic events
    (mkProducer (producer p) (cb p) (logger p) tracer) clk.

Definition Close (p : Producer) : Producer * option error :=
  let '(t, err) := sarama.Close (producer p) in
  (mkProducer t (cb p) (logger p) (tracer p), err).

Definition IsHealthy (p : Producer) (clk : Clock) : Producer * Clock * bool :=
  let '(cb, clk, w, st) :=
    gobreaker.CircuitBreaker_State (cb p) clk (producer p, logger p) in
  (mkProducer (fst w) cb (snd w) (tracer p), clk, bool_decide (st = StateClosed)).

End Producer.

Arguments Producer T : clear implicits.

End producer.

(** ** The consumer (kafka/consumer.go) *)

Module consumer.

Record ConsumerConfig : Type := mkConsumerConfig {
  Brokers : list string;
  GroupID : string;
  Topics : list string;
  ClientID : string
}.

(** What a blocking call has done when it is observed: it has returned a
    value, or it is still waiting. *)
Inductive outcome (A : Type) : Type :=
| Returned (a : A)
| Blocked.
Arguments Returned {A} a.
Arguments Blocked {A}.

(** One turn of the [select] in [ConsumeClaim]: a record arrives on
    [claim.Messages()], that channel is found closed, or the session
    context is done.  Which case fires when several are ready is the
    runtime's choice, so a run of the loop is driven by the list of the
    cases that fired. *)
Inductive selected : Type :=
| SelMessage (message : sarama.ConsumerMessage)
| SelClosed
| SelDone.

Definition is_exit (s : selected) : bool :=
  match s with
  | SelMessage _ => false
  | SelClosed | SelDone => true
  end.

(** One call of [client.Consume] as the supervising loop sees it. *)
Inductive consumed : Type :=
| JoinFails (err : error)
| SessionEnds (ret : option error)
| SessionLasts.

(** [chan bool] values that are only ever closed and received from: a
    heap of channels, each closed or not, addressed by allocation
    order. *)
Definition chan := nat.
Definition Chans := list bool.

Definition make_chan (h : Chans) : chan * Chans := (length h, h ++ [false]).
Definition close_chan (ch : chan) (h : Chans) : Chans := <[ch := true]> h.
Definition is_closed (ch : chan) (h : Chans) : bool := default false (h !! ch).

Section Consumer.
(** [H] is the state the application's handler closes over. *)
Context {H : Type}.

Definition MessageHandler : Type :=
  Context -> sarama.ConsumerMessage -> H -> H * option error.

(** The [client] field is the broker's side of the group protocol; its
    behaviour enters as the schedules that drive [ConsumeClaim] and
    [Start]. *)
Record Consumer : Type := mkConsumer {
  handler : MessageHandler;
  handler_state : H;
  logger : Logger;
  tracer : Tracer;
  topics : list string;
  ready : chan;
  cancel : bool;
  wg : Z
}.

Definition with_handled (c : Consumer) (h : H) (l : Logger) (t : Tracer) : Consumer :=
  mkConsumer (handler c) h l t (topics c) (ready c) (cancel c) (wg c).

Definition failed_entry (message : sarama.ConsumerMessage) (err : error) : Entry :=
  mkEntry ErrorLevel "Failed to process message"
          [zap_String "topic" (sarama.Topic message);
           zap_Int32 "partition" (sarama.Partition message);
           zap_Int64 "offset" (sarama.Offset message);
           zap_Error err].

(** [Setup] closes the current [ready] channel. *)
Definition Setup (c : Consumer) (h : Chans) : Chans * option error :=
  (close_chan (ready c) h, None).

Definition Cleanup (c : Consumer) : option error := None.

Fixpoint ConsumeClaim (sel : list selected) (c : Consumer)
         (session : sarama.ConsumerGroupSession)
  : Consumer * sarama.ConsumerGroupSession * outcome (option error) :=
  match sel with
  | [] => (c, session, Blocked)
  | SelClosed :: _ => (c, session, Returned None)
  | SelDone :: _ => (c, session, Returned None)
  | SelMessage message :: sel =>
      let '(ctx, _, tr) := Tracer_Start None (tracer c) in
      match handler c ctx message (handler_state c) with
      | (h, Some err) =>
          ConsumeClaim sel
            (with_handled c h (logger c ++ [failed_entry message err]) tr)
            session
      | (h, None) =>
          ConsumeClaim sel (with_handled c h (logger c) tr)
            (sarama.MarkMessage message session)
      end
  end.

(** [c.client.Consume(ctx, c.topics, c)] as the loop sees it: a
    failed join returns its error before [Setup] is called; a session
    calls [Setup] first and then either ends, returning what the
    library returns, or is still running. *)
Definition Consume (call : consumed) (c : Consumer) (h : Chans)
  : Chans * outcome (option error) :=
  match call with
  | JoinFails err => (h, Returned (Some err))
  | SessionEnds ret => (fst (Setup c h), Returned ret)
  | SessionLasts => (fst (Setup c h), Blocked)
  end.

(** The goroutine of [Start].  Each round is one [Consume] call
    together with whether the context is cancelled when it returns.
    The result tells whether the goroutine has returned. *)
Fixpoint supervise (rounds : list (consumed * bool)) (c : Consumer) (h : Chans)
  : Consumer * Chans * outcome unit :=
  match rounds with
  | [] => (c, h, Blocked)
  | (call, cancelled) :: rounds =>
      match Consume call c h with
      | (h, Blocked) => (c, h, Blocked)
      | (h, Returned err) =>
          let l :=
            match err with
            | Some err => write ErrorLevel "Consumer error" [zap_Error err] (logger c)
            | None => logger c
            end in
          if cancelled then
            (mkConsumer (handler c) (handler_state c) l (tracer c) (topics c)
                        (ready c) (cancel c) (wg c - 1), h, Returned tt)
          else
            let '(ch, h) := make_chan h in
            supervise rounds
              (mkConsumer (handler c) (handler_state c) l (tracer c) (topics c)
                          ch (cancel c) (wg c)) h
      end
  end.

(** [Start].  The caller reads [c.ready] while the goroutine may
    already have replaced it; [k] is the number of rounds the goroutine
    has completed at that moment.  The caller then waits for that
    channel to be closed and goes on as soon as it is: it writes its
    record to the log as the log stands then, that is after the records
    of the rounds completed when it read the channel, and before the
    record of the error that ends the session whose [Setup] closed the
    channel, or of any later one.  The result is what is observed when
    the goroutine has run [rounds]. *)
Definition Start (rounds : list (consumed * bool)) (k : nat) (c : Consumer) (h : Chans)
  : Consumer * Chans * outcome (option error) :=
  let c0 := mkConsumer (handler c) (handler_state c) (logger c) (tracer c)
                       (topics c) (ready c) true (wg c + 1) in
  let ck := fst (fst (supervise (take k rounds) c0 h)) in
  let waited := ready ck in
  let '(c1, h1, _) := supervise rounds c0 h in
  if is_closed waited h1 then
    (mkConsumer (handler c1) (handler_state c1)
                (write InfoLevel "Consumer started" [zap_Strings "topics" (topics ck)]
                       (logger ck)
                 ++ drop (length (logger ck)) (logger c1))
                (tracer c1) (topics c1) (ready c1) (cancel c1) (wg c1),
     h1, Returned None)
  else (c1, h1, Blocked).

(** The [Consume] call of a session in which the member holds one
    claim.  sarama calls [Setup], runs [ConsumeClaim] on the claim in a
    goroutine of its own and waits for it; when it has returned, sarama
    calls [Cleanup] and [Consume] returns what [Cleanup] returned (an
    error of [ConsumeClaim] goes to the group's error channel).  As long
    as [ConsumeClaim] has not returned, neither has [Consume]. *)
Definition session_of_claim (sel : list selected) (c : Consumer)
           (session : sarama.ConsumerGroupSession) : consumed :=
  match snd (ConsumeClaim sel c session) with
  | Returned _ => SessionEnds (Cleanup c)
  | Blocked => SessionLasts
  end.

(** [Stop].  [cancel], if it is set, is called: from then on the
    goroutine of [Start] finds the context cancelled when its [Consume]
    call returns, which is what the script of the goroutine records.
    [wg.Wait] returns once the counter is at zero; then the client is
    closed and the error of [Close] returned.  [Stop] is observed in the
    state the goroutine has reached. *)
Definition Stop (client_Close : option error) (c : Consumer) (h : Chans)
  : Consumer * Chans * outcome (option error) :=
  if wg c =? 0 then (c, h, Returned client_Close) else (c, h, Blocked).

End Consumer.

Arguments Consumer H : clear implicits.
Arguments MessageHandler H : clear implicits.

End consumer.

(** ** events: the event types and their topics (events.go, topics.go) *)

Module events.

Definition EventType := string.

Definition EventTypeTransactionInitiated : EventType := "TransactionInitiated".
Definition EventTypeTransactionAnalyzing : EventType := "TransactionAnalyzing".
Definition EventTypeTransactionApproved : EventType := "TransactionApproved".
Definition EventTypeTransactionRejected : EventType := "TransactionRejected".
Definition EventTypeTransactionCompleted : EventType := "TransactionCompleted".
Definition EventTypeTransactionFailed : EventType := "TransactionFailed".
Definition EventTypeTransactionCancelled : EventType := "TransactionCancelled".
Definition EventTypeTransactionWaitingReview : EventType := "TransactionWaitingReview".
Definition EventTypeFraudAnalysisComplete : EventType := "FraudAnalysisComplete".
Definition EventTypeFraudSuspected : EventType := "FraudSuspected".
Definition EventTypeFraudReviewComplete : EventType := "FraudReviewComplete".
Definition EventTypeManualReviewRequired : EventType := "ManualReviewRequired".
Definition EventTypeBlocklistMatch : EventType := "BlocklistMatch".
Definition EventTypeUserCreated : EventType := "UserCreated".
Definition EventTypeUserUpdated : EventType := "UserUpdated".
Definition EventTypeUserLocked : EventType := "UserLocked".
Definition EventTypeUserPasswordChanged : EventType := "UserPasswordChanged".
Definition EventTypeLoginSuccess : EventType := "LoginSuccess".
Definition EventTypeLoginFailed : EventType := "LoginFailed".
Definition EventTypeMFAEnabled : EventType := "MFAEnabled".
Definition EventTypeTokenRevoked : EventType := "TokenRevoked".
Definition EventTypeJWTKeyRotated : EventType := "JWTKeyRotated".
Definition EventTypeSecurityAlert : EventType := "SecurityAlert".
Definition EventTypeNotificationSent : EventType := "NotificationSent".
Definition EventTypeNotificationFailed : EventType := "NotificationFailed".
Definition EventTypeAMLScreeningComplete : EventType := "AMLScreeningComplete".
Definition EventTypeSARFiled : EventType := "SARFiled".
Definition EventTypeRiskProfileUpdated : EventType := "RiskProfileUpdated".
Definition EventTypeAuditLogCreated : EventType := "AuditLogCreated".

Record TopicConfig := mkTopicConfig {
  TransactionInitiated : string;
  TransactionApproved : string;
  TransactionRejected : string;
  TransactionCompleted : string;
  FraudAnalysis : string;
  FraudSuspected : string;
  ManualReview : string;
  UserEvents : string;
  SecurityEvents : string;
  Notifications : string;
  AMLScreening : string;
  SARFiling : string;
  AuditLog : string
}.

Definition DefaultTopicConfig : TopicConfig :=
  {| TransactionInitiated := "banking.transactions.initiated";
     TransactionApproved := "banking.transactions.approved";
     TransactionRejected := "banking.transactions.rejected";
     TransactionCompleted := "banking.transactions.completed";
     FraudAnalysis := "banking.fraud.analysis";
     FraudSuspected := "banking.fraud.suspected";
     ManualReview := "banking.fraud.manual-review";
     UserEvents := "banking.users.events";
     SecurityEvents := "banking.security.events";
     Notifications := "banking.notifications";
     AMLScreening := "banking.aml.screening";
     SARFiling := "banking.aml.sar-filing";
     AuditLog := "banking.audit.log" |}.

(** One [case] of the switch: the value is one of the listed ones. *)
Definition case (e : EventType) (values : list EventType) : bool :=
  existsb (String.eqb e) values.

Definition Topic (e : EventType) (cfg : TopicConfig) : string :=
  if case e [EventTypeTransactionInitiated] then TransactionInitiated cfg
  else if case e [EventTypeTransactionApproved] then TransactionApproved cfg
  else if case e [EventTypeTransactionRejected] then TransactionRejected cfg
  else if case e [EventTypeTransactionCompleted] then TransactionCompleted cfg
  else if case e [EventTypeFraudAnalysisComplete; EventTypeFraudReviewComplete]
       then FraudAnalysis cfg
  else if case e [EventTypeFraudSuspected; EventTypeBlocklistMatch] then FraudSuspected cfg
  else if case e [EventTypeManualReviewRequired] then ManualReview cfg
  else if case e [EventTypeUserCreated; EventTypeUserUpdated; EventTypeUserLocked]
       then UserEvents cfg
  else if case e [EventTypeLoginSuccess; EventTypeLoginFailed; EventTypeSecurityAlert;
                  EventTypeJWTKeyRotated]
       then SecurityEvents cfg
  else if case e [EventTypeNotificationSent; EventTypeNotificationFailed]
       then Notifications cfg
  else if case e [EventTypeAMLScreeningComplete; EventTypeRiskProfileUpdated]
       then AMLScreening cfg
  else if case e [EventTypeSARFiled] then SARFiling cfg
  else if case e [EventTypeAuditLogCreated] then AuditLog cfg
  else AuditLog cfg.

End events.

(** ** validators (validators.go) *)

(** shopspring/decimal: a number [value * 10 ^ exp]. *)
Module decimal.

Record Decimal := mkDecimal { value : Z; exp : Z }.

Definition Zero : Decimal := mkDecimal 0 1.
Definition NewFromInt (v : Z) : Decimal := mkDecimal v 0.
Definition Exponent (d : Decimal) : Z := exp d.

(** [rescale] to a smaller exponent multiplies the coefficient, to a
    larger one divides it (truncating). *)
Definition rescale (d : Decimal) (e : Z) : Decimal :=
  if exp d =? e then d
  else if exp d <? e then mkDecimal (Z.quot (value d) (10 ^ (e - exp d))) e
  else mkDecimal (value d * 10 ^ (exp d - e)) e.

Definition RescalePair (d1 d2 : Decimal) : Decimal * Decimal :=
  if exp d1 <? exp d2 then (d1, rescale d2 (exp d1))
  else if exp d2 <? exp d1 then (rescale d1 (exp d2), d2)
  else (d1, d2).

Definition Cmp (d d2 : Decimal) : comparison :=
  if exp d =? exp d2 then value d ?= value d2
  else let '(rd, rd2) := RescalePair d d2 in value rd ?= value rd2.

Definition LessThanOrEqual (d d2 : Decimal) : bool :=
  match Cmp d d2 with Gt => false | _ => true end.

Definition GreaterThan (d d2 : Decimal) : bool :=
  match Cmp d d2 with Gt => true | _ => false end.

End decimal.

Module validators.

Record ValidationError := mkValidationError { Field : string; Message : string }.

(** The package variable, at its initial value. *)
Definition MaxTransferAmount : decimal.Decimal := decimal.NewFromInt 1000000.

Definition ValidateTransferAmount (amount : decimal.Decimal) : option ValidationError :=
  if decimal.LessThanOrEqual amount decimal.Zero then
    Some (mkValidationError "amount" "Amount must be greater than zero")
  else if decimal.GreaterThan amount MaxTransferAmount then
    Some (mkValidationError "amount" "Amount exceeds maximum limit of 1000000")
  else if decimal.Exponent amount <? -2 then
    Some (mkValidationError "amount" "Amount has too many decimal places (max 2)")
  else None.

(** A string is its bytes.  [\d] matches the ASCII digits; [^] and [$]
    match at the two ends of the text only. *)
Definition byte (c : Ascii.ascii) : Z := Z.of_N (Ascii.N_of_ascii c).

Definition is_digit (c : Ascii.ascii) : bool := (48 <=? byte c) && (byte c <=? 57).

Definition bytes (s : string) : list Ascii.ascii := String.list_ascii_of_string s.

Definition len (s : string) : Z := Z.of_nat (String.length s).

(** [^\d{9}$] *)
Definition routingNumberRegex (s : string) : bool :=
  (len s =? 9) && forallb is_digit (bytes s).

Definition ValidateRoutingNumber (routingNumber : string) : option ValidationError :=
  if negb (routingNumberRegex routingNumber) then
    Some (mkValidationError "routing_number" "Routing number must be exactly 9 digits")
  else
    let digits (i : nat) : Z := nth i (map (fun c => byte c - 48) (bytes routingNumber)) 0 in
    let checksum :=
      Z.rem (3 * (digits 0%nat + digits 3%nat + digits 6%nat)
             + 7 * (digits 1%nat + digits 4%nat + digits 7%nat)
             + (digits 2%nat + digits 5%nat + digits 8%nat)) 10 in
    if negb (checksum =? 0) then
      Some (mkValidationError "routing_number" "Invalid routing number checksum")
    else None.

(** [SanitizeInput] works rune by rune: the input is given as the
    sequence of runes Go decodes from the string, the result as the
    runes of the string returned. *)
Definition rune := Z.

(** [unicode.IsSpace] *)
Definition IsSpace (r : rune) : bool :=
  ((9 <=? r) && (r <=? 13)) || (r =? 32) || (r =? 133) || (r =? 160)
  || (r =? 5760) || ((8192 <=? r) && (r <=? 8202))
  || (r =? 8232) || (r =? 8233) || (r =? 8239) || (r =? 8287) || (r =? 12288).

(** [strings.Map]: a rune mapped to a negative value is dropped. *)
Definition Map (mapping : rune -> rune) (s : list rune) : list rune :=
  List.filter (fun r => 0 <=? r) (map mapping s).

Fixpoint TrimLeftFunc (f : rune -> bool) (s : list rune) : list rune :=
  match s with
  | [] => []
  | r :: rest => if f r then TrimLeftFunc f rest else s
  end.

Definition TrimRightFunc (f : rune -> bool) (s : list rune) : list rune :=
  rev (TrimLeftFunc f (rev s)).

Definition TrimSpace (s : list rune) : list rune :=
  TrimRightFunc IsSpace (TrimLeftFunc IsSpace s).

Definition SanitizeInput (input : list rune) : list rune :=
  let sanitized :=
    Map (fun r => if (r <? 32) && negb (r =? 10) && negb (r =? 13) && negb (r =? 9)
                  then -1 else r) input in
  TrimSpace sanitized.

End validators.

(** ** Vocabulary of the specification *)

Definition reading (clk : Clock) : Z := fst (Now clk).
Definition tick (clk : Clock) : Clock := snd (Now clk).

Definition succeeded {R : Type} (r : result R) : bool :=
  match r with Ok _ => true | Err _ => false end.

(** A breaker configured as [NewProducer] configures it. *)
Definition producer_breaker {T : Type}
           (cb : gobreaker.CircuitBreaker (@producer.Wires T)) : Prop :=
  gobreaker.name cb = "kafka-producer"
  /\ gobreaker.maxRequests cb = 3
  /\ gobreaker.interval cb = 10 * time.Second
  /\ gobreaker.timeout cb = 30 * time.Second
  /\ gobreaker.readyToTrip cb = producer.ReadyToTrip
  /\ gobreaker.onStateChange cb = Some producer.OnStateChange.

(** A caller that publishes every event of a list, whatever the results,
    and collects them. *)
Fixpoint feed {T : Type} `{!sarama.SyncProducer T} (ctx : Context) (topic : string)
         (events : list producer.Event) (p : producer.Producer T) (clk : Clock)
  : producer.Producer T * Clock * list (option error) :=
  match events with
  | [] => (p, clk, [])
  | event :: events =>
      let '(p, clk, r) := producer.Publish ctx topic event p clk in
      let '(p, clk, rs) := feed ctx topic events p clk in
      (p, clk, r :: rs)
  end.

(** How many of the [n] transport answers starting at [from] are
    failures. *)
Fixpoint failures (answers : nat -> result (Z * Z)) (from n : nat) : Z :=
  match n with
  | O => 0
  | S n => (if succeeded (answers from) then 0 else 1) + failures answers (S from) n
  end.

Definition serializable (event : producer.Event) : Prop :=
  exists payload, producer.json_Marshal event = Ok payload.

(** The publishes of a list all succeed, one after the other. *)
Inductive published {T : Type} `{!sarama.SyncProducer T} (ctx : Context) (topic : string)
  : list producer.Event -> producer.Producer T * Clock -> producer.Producer T * Clock -> Prop :=
| published_nil s : published ctx topic [] s s
| published_cons event events p clk p1 clk1 s :
    producer.Publish ctx topic event p clk = (p1, clk1, None) ->
    published ctx topic events (p1, clk1) s ->
    published ctx topic (event :: events) (p, clk) s.

(** Every reading the clock has yet to give lies in [[lo, hi]]. *)
Definition within (clk : Clock) (lo hi : Z) : Prop :=
  forall i, (ticks clk <= i)%nat -> lo <= readings clk i <= hi.

(** The record [msg] is what [Publish] sends for [event] on [topic]. *)
Definition carries (topic : string) (event : producer.Event)
           (msg : sarama.ProducerMessage) : Prop :=
  sarama.msg_Topic msg = topic
  /\ sarama.msg_Key msg = producer.Key event
  /\ producer.json_Marshal event = Ok (sarama.msg_Value msg).

(** *** Sample inputs *)

Module sample.

Definition kafka_error : error := errorString "kafka error".

(** A transport that fails exactly the sends whose numbers are listed. *)
Definition answers (fails : list nat) (n : nat) : result (Z * Z) :=
  if bool_decide (n ∈ fails) then Err kafka_error else Ok (0, Z.of_nat n).

Definition broker (fails : list nat) : sarama.Broker :=
  sarama.mkBroker (answers fails) 0 [] false.

(** A clock that advances one millisecond per reading for its first
    thousand readings and then stands still, and one that does the same
    but jumps ahead by a minute at its [n]-th reading. *)
Definition steady : Clock :=
  mkClock (fun i => Z.of_nat (Nat.min i 1000) * time.Millisecond) 0.

Definition jumping (n : nat) : Clock :=
  mkClock (fun i => if (i <? n)%nat then Z.of_nat (Nat.min i 1000) * time.Millisecond
                    else 60 * time.Second + Z.of_nat (Nat.min i 1000) * time.Millisecond)
          0.

Definition spans : Tracer := mkTracer (fun _ => "00000000000000000000000000000000") 0.

Definition defaults : sarama.Config :=
  sarama.mkConfig "sarama" 5 sarama.WaitForLocal 3 0 0 sarama.CompressionNone
                  false true false [sarama.BalanceStrategyRange]
                  sarama.OffsetNewest false.

Definition config : producer.ProducerConfig :=
  producer.DefaultProducerConfig ["localhost:9092"] "test-client".

Definition dial (fails : list nat) (_ : list string) (_ : sarama.Config)
  : result sarama.Broker := Ok (broker fails).

(** An event with key 123 and an empty JSON object as its body, and one
    whose encoder fails. *)
Definition event : producer.Event :=
  producer.mkEvent "123" (Ok "{}").

Definition unencodable : producer.Event :=
  producer.mkEvent "123" (Err (errorString "json: unsupported type: chan int")).

Definition new_producer (fails : list nat) (clk : Clock)
  : result (producer.Producer sarama.Broker) * Clock :=
  producer.NewProducer defaults (dial fails) (fun _ => spans) config [] clk.

(** What [new_producer] returns, without the [result] around it. *)
Definition fresh (fails : list nat) (clk : Clock)
  : producer.Producer sarama.Broker * Clock :=
  let '(cb, clk) := gobreaker.NewCircuitBreaker producer.cbSettings clk in
  (producer.mkProducer (broker fails) cb [] spans, clk).

(** The producer, the clock and the results after [n] publishes of
    [event] on a new producer. *)
Definition after (fails : list nat) (clk : Clock) (n : nat)
  : producer.Producer sarama.Broker * Clock * list (option error) :=
  feed None "test-topic" (replicate n event) (fresh fails clk).1 (fresh fails clk).2.

End sample.

(** *** The consumer side *)

(** The rounds of a script that the supervising loop completes: up to
    and including the first one that ends with the context cancelled, and
    short of a session that is still running. *)
Fixpoint completed (rounds : list (consumer.consumed * bool))
  : list (consumer.consumed * bool) :=
  match rounds with
  | [] => []
  | (consumer.SessionLasts, _) :: _ => []
  | (call, true) :: _ => [(call, true)]
  | (call, false) :: rounds => (call, false) :: completed rounds
  end.



Module consumer_sample.

Definition topic : string := "banking.transactions.initiated".

Definition record (offset : Z) : sarama.ConsumerMessage :=
  sarama.mkConsumerMessage topic 0 offset "123" "{}".

Definition handler_error : error := errorString "handler error".

(** A handler that keeps the offsets it has seen and fails on the record
    at offset [n]. *)
Definition failing_at (n : Z) : consumer.MessageHandler (list Z) :=
  fun _ message seen =>
    (seen ++ [sarama.Offset message],
     if sarama.Offset message =? n then Some handler_error else None).

(** A consumer as [NewConsumer] leaves it, with its first [ready]
    channel allocated. *)
Definition member (h : consumer.MessageHandler (list Z)) : consumer.Consumer (list Z) :=
  consumer.mkConsumer h [] [] sample.spans [topic] 0%nat false 0.

Definition chans : consumer.Chans := [false].

(** A session that has claimed partition 0 of [topic], with [offset] as
    the next record to read. *)
Definition session_at (offset : Z) : sarama.ConsumerGroupSession :=
  sarama.mkSession {[ (topic, 0) := offset ]}.

Definition join_error : error := errorString "kafka: client has run out of available brokers".

End consumer_sample.

(** *** Vocabulary of the further properties *)

(** The probes of a half-open breaker are counted one by one: between
    calls every request it has let through has succeeded, and there are
    fewer than [MaxRequests] of them. *)
Definition probes_in_step {T : Type}
           (cb : gobreaker.CircuitBreaker (@producer.Wires T)) : Prop :=
  producer_breaker cb
  /\ (gobreaker.state cb = gobreaker.StateHalfOpen ->
      gobreaker.Requests (gobreaker.counts cb)
      = gobreaker.ConsecutiveSuccesses (gobreaker.counts cb)
      /\ 0 <= gobreaker.Requests (gobreaker.counts cb) < 3).

(** The same breaker between [beforeRequest] and [afterRequest]. *)
Definition probe_in_flight {T : Type}
           (cb : gobreaker.CircuitBreaker (@producer.Wires T)) : Prop :=
  producer_breaker cb
  /\ gobreaker.state cb <> gobreaker.StateOpen
  /\ (gobreaker.state cb = gobreaker.StateHalfOpen ->
      gobreaker.Requests (gobreaker.counts cb)
      = gobreaker.ConsecutiveSuccesses (gobreaker.counts cb) + 1
      /\ 1 <= gobreaker.Requests (gobreaker.counts cb) <= 3).

(** The headers of a record sent under the trace [tid]. *)
Definition traced (tid : string) (msg : sarama.ProducerMessage) : Prop :=
  sarama.msg_Headers msg
  = [sarama.mkHeader "content-type" "application/json";
     sarama.mkHeader "trace-id" tid].

(** The records a run of the claim loop receives: those selected before
    the first exit. *)
Fixpoint received (sel : list consumer.selected) : list sarama.ConsumerMessage :=
  match sel with
  | consumer.SelMessage message :: sel => message :: received sel
  | _ => []
  end.

(** The offset a partition is marked with once the handler has succeeded
    on [messages], starting from the mark [cur]. *)
Definition mark_after (cur : Z) (messages : list sarama.ConsumerMessage) : Z :=
  fold_left (fun mark message => Z.max mark (sarama.Offset message + 1)) messages cur.

(** Whether the first [Consume] call of a script reaches [Setup]. *)
Definition first_call_sets_up (rounds : list (consumer.consumed * bool)) : bool :=
  match rounds with
  | [] => false
  | (consumer.JoinFails _, _) :: _ => false
  | _ => true
  end.

(** Event types that are declared but have no [case] in [Topic]. *)
Definition unrouted : list events.EventType :=
  [events.EventTypeTransactionAnalyzing; events.EventTypeTransactionFailed;
   events.EventTypeTransactionCancelled; events.EventTypeTransactionWaitingReview;
   events.EventTypeUserPasswordChanged; events.EventTypeMFAEnabled;
   events.EventTypeTokenRevoked].

(** The event types whose [case] names a topic other than the audit log. *)
Definition routed : list events.EventType :=
  [events.EventTypeTransactionInitiated; events.EventTypeTransactionApproved;
   events.EventTypeTransactionRejected; events.EventTypeTransactionCompleted;
   events.EventTypeFraudAnalysisComplete; events.EventTypeFraudReviewComplete;
   events.EventTypeFraudSuspected; events.EventTypeBlocklistMatch;
   events.EventTypeManualReviewRequired;
   events.EventTypeUserCreated; events.EventTypeUserUpdated; events.EventTypeUserLocked;
   events.EventTypeLoginSuccess; events.EventTypeLoginFailed;
   events.EventTypeSecurityAlert; events.EventTypeJWTKeyRotated;
   events.EventTypeNotificationSent; events.EventTypeNotificationFailed;
   events.EventTypeAMLScreeningComplete; events.EventTypeRiskProfileUpdated;
   events.EventTypeSARFiled].

Definition topic_names (cfg : events.TopicConfig) : list string :=
  [events.TransactionInitiated cfg; events.TransactionApproved cfg;
   events.TransactionRejected cfg; events.TransactionCompleted cfg;
   events.FraudAnalysis cfg; events.FraudSuspected cfg; events.ManualReview cfg;
   events.UserEvents cfg; events.SecurityEvents cfg; events.Notifications cfg;
   events.AMLScreening cfg; events.SARFiling cfg; events.AuditLog cfg].

(** The routing number is accepted. *)
Definition valid_routing_number (s : string) : Prop :=
  validators.ValidateRoutingNumber s = None.

(** A string of nine bytes, and the weighted sum of their digit values. *)
Definition nine (c0 c1 c2 c3 c4 c5 c6 c7 c8 : Ascii.ascii) : string :=
  String c0 (String c1 (String c2 (String c3 (String c4 (String c5
    (String c6 (String c7 (String c8 EmptyString)))))))).

Definition checksum (c0 c1 c2 c3 c4 c5 c6 c7 c8 : Ascii.ascii) : Z :=
  3 * ((validators.byte c0 - 48) + (validators.byte c3 - 48) + (validators.byte c6 - 48))
  + 7 * ((validators.byte c1 - 48) + (validators.byte c4 - 48) + (validators.byte c7 - 48))
  + ((validators.byte c2 - 48) + (validators.byte c5 - 48) + (validators.byte c8 - 48)).

(** The runes [SanitizeInput] removes wherever they stand, and those it
    lets through. *)
Definition control (r : validators.rune) : bool :=
  (r <? 32) && negb (r =? 10) && negb (r =? 13) && negb (r =? 9).

Definition printable (r : validators.rune) : Prop :=
  32 <= r \/ r = 9 \/ r = 10 \/ r = 13.

(** The first and the last rune are no white space. *)
Definition trimmed (s : list validators.rune) : Prop :=
  match head s with Some r => validators.IsSpace r = false | None => True end
  /\ match last s with Some r => validators.IsSpace r = false | None => True end.

(** A handler that succeeds on every record, and one that fails on every
    record; both keep the offsets they have seen. *)
Definition accepting : consumer.MessageHandler (list Z) :=
  fun _ message seen => (seen ++ [sarama.Offset message], None).

Definition refusing : consumer.MessageHandler (list Z) :=
  fun _ message seen =>
    (seen ++ [sarama.Offset message], Some consumer_sample.handler_error).

(** * Properties *)

Import gobreaker producer.

(** ** The trip condition *)

Lemma ReadyToTrip_spec (c : gobreaker.Counts) :
  producer.ReadyToTrip c = true
  <-> 3 <= gobreaker.Requests c
      /\ 3 * gobreaker.Requests c <= 5 * gobreaker.TotalFailures c.
Proof.
  unfold producer.ReadyToTrip, Qle_bool. cbn [Qnum Qden].
  rewrite andb_true_iff, !Z.leb_le.
  split; intros [H3 Hr]; split; trivial.
  - rewrite Z2Pos.id in Hr by lia. lia.
  - rewrite Z2Pos.id by lia. lia.
Qed.

(** ** The breaker, one call at a time *)

Section BreakerFacts.
Context {W : Type}.
Implicit Types (cb : CircuitBreaker W) (clk : Clock) (w : W).

Lemma currentState_closed cb now w e :
  state cb = StateClosed -> expiry cb = Some e -> now <= e ->
  currentState cb now w = (cb, w).
Proof.
  intros Hs He Hn. unfold currentState, Before. rewrite Hs, He.
  destruct (Z.ltb_spec e now); [lia | reflexivity].
Qed.

Lemma currentState_open cb now w e :
  state cb = StateOpen -> expiry cb = Some e -> now <= e ->
  currentState cb now w = (cb, w).
Proof.
  intros Hs He Hn. unfold currentState, Before. rewrite Hs, He.
  destruct (Z.ltb_spec e now); [lia | reflexivity].
Qed.

Lemma currentState_cooled cb now w e :
  state cb = StateOpen -> expiry cb = Some e -> e < now ->
  currentState cb now w = setState cb StateHalfOpen now w.
Proof.
  intros Hs He Hn. unfold currentState, Before. rewrite Hs, He.
  destruct (Z.ltb_spec e now); [reflexivity | lia].
Qed.

Lemma currentState_halfopen cb now w :
  state cb = StateHalfOpen -> currentState cb now w = (cb, w).
Proof. intros Hs. unfold currentState. now rewrite Hs. Qed.

Lemma beforeRequest_admits cb clk w :
  currentState cb (reading clk) w = (cb, w) ->
  state cb = StateClosed
  \/ (state cb = StateHalfOpen /\ Requests (counts cb) < maxRequests cb) ->
  beforeRequest cb clk w =
    (with_counts cb (Counts_onRequest (counts cb)), tick clk, w, Ok (generation cb)).
Proof.
  intros Hc Hs. unfold beforeRequest, reading, tick in *. cbn [Now fst snd] in *.
  rewrite Hc. case_decide as Ho; [destruct Hs as [Hs|[Hs _]]; congruence|].
  destruct Hs as [Hs|[Hs Hr]].
  - rewrite bool_decide_eq_false_2 by congruence. reflexivity.
  - destruct (Z.leb_spec (maxRequests cb) (Requests (counts cb))); [lia|].
    rewrite andb_false_r. reflexivity.
Qed.

Lemma afterRequest_counts cb clk w success :
  currentState cb (reading clk) w = (cb, w) ->
  afterRequest cb (generation cb) success clk w =
    let '(cb2, w2) :=
      if success then onSuccess cb (state cb) (reading clk) w
      else onFailure cb (state cb) (reading clk) w in
    (cb2, tick clk, w2).
Proof.
  intros Hc. unfold afterRequest, reading, tick in *. cbn [Now fst snd] in *.
  rewrite Hc. case_decide; [|congruence]. reflexivity.
Qed.

(** While the breaker is open and its timer has not run out, a call is
    refused and nothing changes but the clock. *)
Lemma Execute_open {R} cb (req : W -> W * result R) clk w e :
  state cb = StateOpen -> expiry cb = Some e -> reading clk <= e ->
  Execute cb req clk w = (cb, tick clk, w, Err ErrOpenState).
Proof.
  intros Hs He Hr. unfold Execute, beforeRequest, reading, tick in *.
  cbn [Now fst snd] in *. rewrite (currentState_open _ _ _ e) by assumption.
  case_decide; [reflexivity | congruence].
Qed.

(** A call that is let through in a generation that outlives it. *)
Lemma Execute_admitted {R} cb (req : W -> W * result R) clk w :
  currentState cb (reading clk) w = (cb, w) ->
  state cb = StateClosed
  \/ (state cb = StateHalfOpen /\ Requests (counts cb) < maxRequests cb) ->
  (forall w', currentState (with_counts cb (Counts_onRequest (counts cb)))
                (reading (tick clk)) w'
              = (with_counts cb (Counts_onRequest (counts cb)), w')) ->
  Execute cb req clk w =
    let cb1 := with_counts cb (Counts_onRequest (counts cb)) in
    let '(w1, r) := req w in
    let '(cb2, w2) :=
      if succeeded r then onSuccess cb1 (state cb) (reading (tick clk)) w1
      else onFailure cb1 (state cb) (reading (tick clk)) w1 in
    (cb2, tick (tick clk), w2, r).
Proof.
  intros Hc Hs Hc'. unfold Execute. rewrite beforeRequest_admits by assumption.
  cbv zeta. destruct (req w) as [w1 r].
  pose proof (afterRequest_counts (with_counts cb (Counts_onRequest (counts cb)))
                (tick clk) w1 (succeeded r) (Hc' w1)) as Ha.
  cbn [with_counts with_gen generation state] in Ha.
  unfold succeeded in *. rewrite Ha.
  destruct r; cbn;
    (destruct (onSuccess _ _ _ _) || destruct (onFailure _ _ _ _)); reflexivity.
Qed.

Lemma Execute_current {R} cb (req : W -> W * result R) clk w cb0 w0 :
  currentState cb (reading clk) w = (cb0, w0) ->
  currentState cb0 (reading clk) w0 = (cb0, w0) ->
  Execute cb req clk w = Execute cb0 req clk w0.
Proof.
  intros H1 H2. unfold Execute, beforeRequest, reading in *. cbn [Now fst snd] in *.
  now rewrite H1, H2.
Qed.

End BreakerFacts.

(** ** The breaker's callback only writes to the log *)

Section Wiring.
Context {T : Type}.
Implicit Types (cb : CircuitBreaker (@Wires T)) (w : @Wires T).

Lemma setState_wire cb st now w :
  producer_breaker cb ->
  producer_breaker (setState cb st now w).1 /\ (setState cb st now w).2.1 = w.1.
Proof.
  intros Hb. unfold setState. case_decide; [now split|].
  destruct Hb as (Hn & Hmax & Hi & Ht & Hr & Ho). rewrite Ho. cbn.
  repeat split; assumption.
Qed.

Lemma currentState_wire cb now w :
  producer_breaker cb ->
  producer_breaker (currentState cb now w).1 /\ (currentState cb now w).2.1 = w.1.
Proof.
  intros Hb. unfold currentState.
  destruct (state cb); destruct (expiry cb) as [e|];
    try destruct (Before e now); cbn [fst snd];
    try (apply setState_wire; exact Hb); try (split; [exact Hb | reflexivity]).
Qed.

Lemma onSuccess_wire cb st now w :
  producer_breaker cb ->
  producer_breaker (onSuccess cb st now w).1 /\ (onSuccess cb st now w).2.1 = w.1.
Proof.
  intros Hb. unfold onSuccess. destruct st; try (now split).
  destruct (_ <=? _); [apply setState_wire; exact Hb | now split].
Qed.

Lemma onFailure_wire cb st now w :
  producer_breaker cb ->
  producer_breaker (onFailure cb st now w).1 /\ (onFailure cb st now w).2.1 = w.1.
Proof.
  intros Hb. unfold onFailure. destruct st; try (now split).
  - destruct (readyToTrip _ _); [apply setState_wire; exact Hb | now split].
  - apply setState_wire; exact Hb.
Qed.

Lemma afterRequest_wire cb g success clk w :
  producer_breaker cb ->
  producer_breaker (afterRequest cb g success clk w).1.1
  /\ (afterRequest cb g success clk w).2.1 = w.1
  /\ (afterRequest cb g success clk w).1.2 = tick clk.
Proof.
  intros Hb. unfold afterRequest. cbn [Now].
  destruct (currentState_wire cb (readings clk (ticks clk)) w Hb) as [Hb1 Hw1].
  destruct (currentState cb _ w) as [cb1 w1]. cbn [fst snd] in *.
  case_decide; [|cbn; split; [exact Hb1 | split; [exact Hw1 | reflexivity]]].
  destruct success.
  - destruct (onSuccess_wire cb1 (state cb1) (readings clk (ticks clk)) w1 Hb1) as [Hb2 Hw2].
    destruct (onSuccess _ _ _ _). cbn [fst snd] in *.
    split; [exact Hb2 | split; [congruence | reflexivity]].
  - destruct (onFailure_wire cb1 (state cb1) (readings clk (ticks clk)) w1 Hb1) as [Hb2 Hw2].
    destruct (onFailure _ _ _ _). cbn [fst snd] in *.
    split; [exact Hb2 | split; [congruence | reflexivity]].
Qed.

Lemma beforeRequest_wire cb clk w :
  producer_breaker cb ->
  let '(cb1, clk1, w1, r) := beforeRequest cb clk w in
  producer_breaker cb1 /\ w1.1 = w.1 /\ clk1 = tick clk
  /\ match r with
     | Ok _ => True
     | Err cause => cause = ErrOpenState \/ cause = ErrTooManyRequests
     end.
Proof.
  intros Hb. unfold beforeRequest. cbn [Now].
  destruct (currentState_wire cb (readings clk (ticks clk)) w Hb) as [Hb1 Hw1].
  destruct (currentState cb _ w) as [cb1 w1]. cbn [fst snd] in *.
  case_decide; [split; [exact Hb1 | split; [exact Hw1 | split; [reflexivity | now left]]]|].
  destruct (_ && _);
    (split; [exact Hb1 | split; [exact Hw1 | split; [reflexivity | auto]]]).
Qed.
End Wiring.

(** ** One publish *)

Section ProducerFacts.
Context {T : Type} `{!sarama.SyncProducer T}.
Implicit Types (p : Producer T) (clk : Clock) (event : Event).

Lemma Publish_gated ctx topic event p clk payload :
  json_Marshal event = Ok payload ->
  Publish ctx topic event p clk =
    let '(_, traceID, tr) := Tracer_Start ctx (tracer p) in
    let '(cb, clk, w, r) :=
      Execute (cb p) (send topic (outbound topic event payload traceID)) clk
              (producer.producer p, logger p) in
    match r with
    | Err err =>
        (mkProducer (fst w) cb
           (write ErrorLevel "Failed to publish message"
                  [zap_String "topic" topic; zap_Error err] (snd w)) tr,
         clk, Some (Errorf_w ("failed to publish to " +:+ topic +:+ ": ") err))
    | Ok _ => (mkProducer (fst w) cb (snd w) tr, clk, None)
    end.
Proof.
  intros Hm. unfold Publish. destruct (Tracer_Start ctx (tracer p)) as [[c tid] tr].
  rewrite Hm. reflexivity.
Qed.

Lemma Publish_cases ctx topic event p clk payload :
  producer_breaker (cb p) ->
  json_Marshal event = Ok payload ->
  let msg := outbound topic event payload (Tracer_Start ctx (tracer p)).1.2 in
  let '(p', clk', r) := Publish ctx topic event p clk in
  producer_breaker (cb p')
  /\ match beforeRequest (cb p) clk (producer.producer p, logger p) with
     | (cb1, _, _, Err cause) =>
         (cause = ErrOpenState \/ cause = ErrTooManyRequests)
         /\ r = Some (Errorf_w ("failed to publish to " +:+ topic +:+ ": ") cause)
         /\ producer.producer p' = producer.producer p
         /\ cb p' = cb1 /\ clk' = tick clk
     | (_, _, _, Ok _) =>
         producer.producer p' = (sarama.SendMessage msg (producer.producer p)).1
         /\ clk' = tick (tick clk)
         /\ match (sarama.SendMessage msg (producer.producer p)).2 with
            | Err cause =>
                r = Some (Errorf_w ("failed to publish to " +:+ topic +:+ ": ") cause)
            | Ok _ => r = None
            end
     end.
Proof.
  intros Hb Hm. rewrite (Publish_gated _ _ _ _ _ payload Hm).
  destruct (Tracer_Start ctx (tracer p)) as [[c tid] tr]. cbn [fst snd].
  unfold Execute.
  pose proof (beforeRequest_wire (cb p) clk (producer.producer p, logger p) Hb) as Hbr.
  destruct (beforeRequest _ _ _) as [[[cb1 clk1] w1] [g|cause]].
  - destruct Hbr as (Hb1 & Hw1 & -> & _). cbn [fst] in Hw1.
    unfold send at 1. rewrite Hw1.
    destruct (sarama.SendMessage _ (producer.producer p)) as [t [[part off]|cause]];
      cbn [fst snd].
    + match goal with |- context [afterRequest ?a ?b ?c ?d ?e] =>
        destruct (afterRequest_wire a b c d e Hb1) as (Hb2 & Hw2 & Hc2);
        destruct (afterRequest a b c d e) as [[cb2 clk2] w2] end.
      cbn [fst snd producer.cb producer.producer] in *. subst clk2.
      split; [exact Hb2|]. split; [assumption|]. split; reflexivity.
    + match goal with |- context [afterRequest ?a ?b ?c ?d ?e] =>
        destruct (afterRequest_wire a b c d e Hb1) as (Hb2 & Hw2 & Hc2);
        destruct (afterRequest a b c d e) as [[cb2 clk2] w2] end.
      cbn [fst snd producer.cb producer.producer] in *. subst clk2.
      split; [exact Hb2|]. split; [assumption|]. split; reflexivity.
  - destruct Hbr as (Hb1 & Hw1 & -> & Hc). cbn [fst snd producer.cb producer.producer] in *.
    split; [exact Hb1|]. repeat split; auto.
Qed.
Lemma Publish_open ctx topic event p clk e :
  state (cb p) = StateOpen -> expiry (cb p) = Some e -> reading clk <= e ->
  serializable event ->
  exists l tr,
    Publish ctx topic event p clk =
      (mkProducer (producer.producer p) (cb p) l tr, tick clk,
       Some (Errorf_w ("failed to publish to " +:+ topic +:+ ": ") ErrOpenState)).
Proof.
  intros Hs He Hr [payload Hm]. rewrite (Publish_gated _ _ _ _ _ payload Hm).
  destruct (Tracer_Start ctx (tracer p)) as [[c tid] tr].
  rewrite (Execute_open _ _ _ _ e) by assumption. cbn [fst snd]. eauto.
Qed.
End ProducerFacts.

(** ** Publishing to the scripted transport *)

Section BrokerFacts.
Implicit Types (p : Producer sarama.Broker) (clk : Clock) (event : Event).

Lemma Publish_closed ctx topic event p clk e :
  producer_breaker (cb p) ->
  state (cb p) = StateClosed -> expiry (cb p) = Some e ->
  reading clk <= e -> reading (tick clk) <= e ->
  serializable event ->
  exists p' r,
    Publish ctx topic event p clk = (p', tick (tick clk), r)
    /\ sarama.outcome (producer.producer p') = sarama.outcome (producer.producer p)
    /\ sarama.calls (producer.producer p') = S (sarama.calls (producer.producer p))
    /\ producer_breaker (cb p')
    /\ match sarama.outcome (producer.producer p) (sarama.calls (producer.producer p)) with
       | Ok _ =>
           r = None
           /\ cb p' = with_counts (cb p)
                        (Counts_onSuccess (Counts_onRequest (counts (cb p))))
       | Err err =>
           r = Some (Errorf_w ("failed to publish to " +:+ topic +:+ ": ") err)
           /\ let c := Counts_onFailure (Counts_onRequest (counts (cb p))) in
              if ReadyToTrip c then
                state (cb p') = StateOpen
                /\ expiry (cb p') = Some (reading (tick clk) + 30 * time.Second)
                /\ counts (cb p') = Counts_clear
              else cb p' = with_counts (cb p) c
       end.
Proof.
  intros Hb Hs He H1 H2 [payload Hm]. rewrite (Publish_gated _ _ _ _ _ payload Hm).
  destruct (Tracer_Start ctx (tracer p)) as [[c tid] tr].
  rewrite Execute_admitted.
  2:{ eapply currentState_closed; eauto. }
  2:{ now left. }
  2:{ intros w'. eapply currentState_closed; eauto. }
  cbv zeta. unfold send at 1. cbn [fst snd sarama.SendMessage sarama.Broker_SyncProducer].
  unfold sarama.Broker_SendMessage.
  destruct p as [b cb l t]. cbn [producer.producer producer.cb producer.logger] in *.
  destruct Hb as (Hn & Hmax & Hi & Ht & Hr & Ho).
  destruct cb as [n m i to rt osc st g cn ex]. cbn in Hn, Hmax, Hi, Ht, Hr, Ho, Hs, He.
  subst n m i to rt osc st ex.
  destruct (sarama.outcome b (sarama.calls b)) as [[part off]|err] eqn:Hout.
  - eexists _, _. split; [reflexivity|]. cbn.
    repeat split; reflexivity.
  - unfold onFailure. cbn [succeeded with_counts with_gen readyToTrip counts].
    destruct (ReadyToTrip _) eqn:Htrip.
    + unfold setState. cbn [state]. case_decide; [done|].
      eexists _, _. split; [reflexivity|]. cbn.
      repeat split; reflexivity.
    + eexists _, _. split; [reflexivity|]. cbn.
      repeat split; reflexivity.
Qed.

Lemma within_reading clk lo hi : within clk lo hi -> lo <= reading clk <= hi.
Proof. intros H. apply H. lia. Qed.

Lemma within_tick clk lo hi : within clk lo hi -> within (tick clk) lo hi.
Proof. intros H i Hi. apply H. cbn in Hi. lia. Qed.

(** While the breaker is open and its timer has not run out, every
    publish of a run is refused and leaves breaker and transport alone. *)
Lemma feed_open ctx topic events p clk e :
  state (cb p) = StateOpen -> expiry (cb p) = Some e ->
  (forall i, (ticks clk <= i)%nat -> readings clk i <= e) ->
  Forall serializable events ->
  exists p' clk',
    feed ctx topic events p clk =
      (p', clk',
       replicate (length events)
         (Some (Errorf_w ("failed to publish to " +:+ topic +:+ ": ") ErrOpenState)))
    /\ cb p' = cb p /\ producer.producer p' = producer.producer p.
Proof.
  intros Hs He Hw Hev. revert p clk Hs He Hw.
  induction Hev as [|event events Hser _ IH]; intros p clk Hs He Hw.
  - cbn. eauto.
  - cbn [feed].
    destruct (Publish_open ctx topic event p clk e Hs He) as (l & tr & Hp);
      [apply Hw; lia | assumption |].
    rewrite Hp.
    destruct (IH (mkProducer (producer.producer p) (cb p) l tr) (tick clk))
      as (p' & clk' & Hf & Hcb & Hpr); [assumption | assumption | |].
    { intros i Hi. apply Hw. cbn in Hi. lia. }
    rewrite Hf. cbn. eauto.
Qed.

Lemma uint32_small z : 0 <= z < 2 ^ 32 -> uint32 z = z.
Proof. intros. unfold uint32. now apply Z.mod_small. Qed.

Lemma failures_S answers from n :
  failures answers from (S n)
  = (if succeeded (answers from) then 0 else 1) + failures answers (S from) n.
Proof. reflexivity. Qed.

(** A run of publishes inside one window of a closed breaker.  Either
    some send of the run failed with the trip condition met, and that
    send is the last one the transport has seen: the breaker was opened
    when it returned, with thirty seconds on its timer from that moment.
    Or every event was sent and the breaker is closed. *)
Lemma feed_window ctx topic events :
  Forall serializable events ->
  forall p clk e (i : nat) F0,
  producer_breaker (cb p) ->
  state (cb p) = StateClosed -> expiry (cb p) = Some e ->
  within clk (e - 10 * time.Second) e ->
  Requests (counts (cb p)) = Z.of_nat i ->
  TotalFailures (counts (cb p)) = F0 -> 0 <= F0 <= Z.of_nat i ->
  Z.of_nat i + Z.of_nat (length events) < 2 ^ 32 ->
  let b := producer.producer p in
  let p' := (feed ctx topic events p clk).1.1 in
  (state (cb p') = StateOpen
   /\ exists j,
       (j < length events)%nat
       /\ succeeded (sarama.outcome b (sarama.calls b + j)%nat) = false
       /\ 3 <= Z.of_nat i + Z.of_nat j + 1
       /\ 3 * (Z.of_nat i + Z.of_nat j + 1)
          <= 5 * (F0 + failures (sarama.outcome b) (sarama.calls b) (S j))
       /\ sarama.calls (producer.producer p') = (sarama.calls b + j + 1)%nat
       /\ expiry (cb p')
          = Some (readings clk (ticks clk + 2 * j + 1)%nat + 30 * time.Second))
  \/ (state (cb p') = StateClosed
      /\ Requests (counts (cb p')) = Z.of_nat i + Z.of_nat (length events)
      /\ TotalFailures (counts (cb p'))
         = F0 + failures (sarama.outcome b) (sarama.calls b) (length events)
      /\ sarama.calls (producer.producer p') = (sarama.calls b + length events)%nat
      /\ (events <> [] ->
          succeeded (sarama.outcome b (sarama.calls b + length events - 1)%nat) = false ->
          ReadyToTrip (counts (cb p')) = false)).
Proof.
  induction 1 as [|event events Hser Hev IH];
    intros p clk e i F0 Hb Hs He Hw Hreq Hf HF Hlen b p'.
  - right. subst p' b. cbn. rewrite Nat.add_0_r.
    repeat split; try assumption; try lia. congruence.
  - subst p'. cbn [feed length] in *.
    pose proof (within_reading _ _ _ Hw) as Hr1.
    pose proof (within_reading _ _ _ (within_tick _ _ _ Hw)) as Hr2.
    destruct (Publish_closed ctx topic event p clk e Hb Hs He) as
      (p1 & r & Hp & Hout & Hcalls & Hb1 & Hcase); [lia | lia | assumption |].
    rewrite Hp.
    destruct (feed ctx topic events p1 (tick (tick clk))) as [[p2 clk2] rs] eqn:Hfeed.
    cbn [fst snd].
    assert (Hw2 : within (tick (tick clk)) (e - 10 * time.Second) e)
      by now do 2 apply within_tick.
    fold b in Hcase, Hout, Hcalls.
    assert (Hshift : forall j,
               readings (tick (tick clk)) (ticks (tick (tick clk)) + 2 * j + 1)%nat
               = readings clk (ticks clk + 2 * S j + 1)%nat).
    { intros j. cbn. f_equal. lia. }
    destruct (sarama.outcome b (sarama.calls b)) as [po|err] eqn:Hans.
    + destruct Hcase as [-> Hcb].
      assert (state (cb p1) = StateClosed /\ expiry (cb p1) = Some e
              /\ Requests (counts (cb p1)) = Z.of_nat (S i)
              /\ TotalFailures (counts (cb p1)) = F0) as (Hs1 & He1 & Hq1 & Hf1).
      { rewrite Hcb. cbn. rewrite Hreq, uint32_small by lia.
        repeat split; auto. lia. }
      specialize (IH p1 (tick (tick clk)) e (S i) F0 Hb1 Hs1 He1 Hw2 Hq1 Hf1).
      rewrite Hfeed in IH. cbn [fst snd] in IH.
      rewrite Hout, Hcalls in IH.
      destruct IH as [(IH0 & j & Hj & Hfail & H3 & Hratio & Hsent & Hexp)
                     |(IH1 & IH2 & IH3 & IHc & IH4)]; [lia | lia | |].
      * left. split; [assumption|]. exists (S j).
        replace (sarama.calls b + S j)%nat with (S (sarama.calls b) + j)%nat by lia.
        split; [lia|]. split; [assumption|]. split; [lia|].
        split; [rewrite (failures_S _ _ (S j)), Hans; cbn [succeeded]; lia|].
        split; [lia|]. now rewrite <- Hshift.
      * right. cbn [succeeded].
        split; [assumption|]. split; [lia|].
        split; [cbn [failures]; rewrite Hans; cbn [succeeded]; lia|].
        split; [lia|].
        intros _ Hlast. destruct events as [|ev2 events'].
        -- cbn in Hlast.
           replace (sarama.calls b + 1 - 1)%nat with (sarama.calls b) in Hlast by lia.
           rewrite Hans in Hlast. discriminate.
        -- apply IH4; [discriminate|].
           rewrite <- Hlast. f_equal. f_equal. cbn [length]. lia.
    + destruct Hcase as [-> Hcase]. cbv zeta in Hcase.
      destruct (ReadyToTrip _) eqn:Htrip.
      * destruct Hcase as (Hs1 & He1 & Hc1). left.
        apply ReadyToTrip_spec in Htrip. cbn in Htrip.
        rewrite Hreq, Hf, !uint32_small in Htrip by lia.
        destruct (feed_open ctx topic events p1 (tick (tick clk)) _ Hs1 He1)
          as (p3 & clk3 & Hf3 & Hcb3 & Hpr3); [|assumption|].
        { intros j Hj. specialize (Hw2 j Hj). unfold time.Second in *. lia. }
        rewrite Hf3 in Hfeed. injection Hfeed as <- _ _. rewrite Hcb3, Hpr3.
        split; [assumption|]. exists 0%nat.
        rewrite Nat.add_0_r, Hans, failures_S, Hans. cbn [succeeded failures].
        split; [lia|]. split; [reflexivity|]. split; [lia|]. split; [lia|].
        split; [lia|]. rewrite He1. unfold reading. cbn [Now tick fst snd readings ticks].
        do 3 f_equal. lia.
      * assert (state (cb p1) = StateClosed /\ expiry (cb p1) = Some e
                /\ Requests (counts (cb p1)) = Z.of_nat (S i)
                /\ TotalFailures (counts (cb p1)) = F0 + 1) as (Hs1 & He1 & Hq1 & Hf1).
        { rewrite Hcase. cbn. rewrite Hreq, Hf, !uint32_small by lia.
          repeat split; auto. lia. }
        specialize (IH p1 (tick (tick clk)) e (S i) (F0 + 1) Hb1 Hs1 He1 Hw2 Hq1 Hf1).
        rewrite Hfeed in IH. cbn [fst snd] in IH.
        rewrite Hout, Hcalls in IH.
        destruct IH as [(IH0 & j & Hj & Hfail & H3 & Hratio & Hsent & Hexp)
                       |(IH1 & IH2 & IH3 & IHc & IH4)]; [lia | lia | |].
        -- left. split; [assumption|]. exists (S j).
           replace (sarama.calls b + S j)%nat with (S (sarama.calls b) + j)%nat by lia.
           split; [lia|]. split; [assumption|]. split; [lia|].
           split; [rewrite (failures_S _ _ (S j)), Hans; cbn [succeeded]; lia|].
           split; [lia|]. now rewrite <- Hshift.
        -- right. cbn [succeeded].
           split; [assumption|]. split; [lia|].
           split; [cbn [failures]; rewrite Hans; cbn [succeeded]; lia|].
           split; [lia|].
           intros _ Hlast. destruct events as [|ev2 events'].
           ++ cbn in Hfeed. inversion Hfeed; subst p2.
              rewrite Hcase. cbn. exact Htrip.
           ++ apply IH4; [discriminate|].
              rewrite <- Hlast. f_equal. f_equal. cbn [length]. lia.
Qed.

Lemma Publish_probe ctx topic event p clk e :
  producer_breaker (cb p) ->
  state (cb p) = StateOpen -> expiry (cb p) = Some e ->
  e < reading clk ->
  serializable event ->
  exists p' r,
    Publish ctx topic event p clk = (p', tick (tick clk), r)
    /\ sarama.outcome (producer.producer p') = sarama.outcome (producer.producer p)
    /\ sarama.calls (producer.producer p') = S (sarama.calls (producer.producer p))
    /\ producer_breaker (cb p')
    /\ match sarama.outcome (producer.producer p) (sarama.calls (producer.producer p)) with
       | Ok _ =>
           r = None
           /\ state (cb p') = StateHalfOpen
           /\ counts (cb p') = mkCounts 1 1 0 1 0
           /\ expiry (cb p') = None
       | Err err =>
           r = Some (Errorf_w ("failed to publish to " +:+ topic +:+ ": ") err)
           /\ state (cb p') = StateOpen
           /\ expiry (cb p') = Some (reading (tick clk) + 30 * time.Second)
           /\ counts (cb p') = Counts_clear
       end.
Proof.
  intros Hb Hs He H1 [payload Hm]. rewrite (Publish_gated _ _ _ _ _ payload Hm).
  destruct (Tracer_Start ctx (tracer p)) as [[c tid] tr].
  destruct p as [b cb l t]. cbn [producer.producer producer.cb producer.logger] in *.
  destruct Hb as (Hn & Hmax & Hi & Ht & Hr & Ho).
  destruct cb as [n m i to rt osc st g cn ex]. cbn in Hn, Hmax, Hi, Ht, Hr, Ho, Hs, He.
  subst n m i to rt osc st ex.
  match goal with |- context [Execute ?cb _ _ ?w] =>
    rewrite (Execute_current cb _ _ w
               (toNewGeneration (with_state cb StateHalfOpen) (reading clk))
               (OnStateChange "kafka-producer" StateOpen StateHalfOpen w))
  end.
  2:{ erewrite currentState_cooled by (cbn; eauto). unfold setState. cbn [state].
      case_decide; [done|]. cbn [onStateChange]. reflexivity. }
  2:{ apply currentState_halfopen. reflexivity. }
  rewrite Execute_admitted.
  2:{ apply currentState_halfopen. reflexivity. }
  2:{ right. cbn. split; [reflexivity|lia]. }
  2:{ intros w'. apply currentState_halfopen. reflexivity. }
  cbv zeta. unfold send at 1. cbn [fst snd sarama.SendMessage sarama.Broker_SyncProducer].
  unfold sarama.Broker_SendMessage. cbn [OnStateChange fst snd sarama.outcome sarama.calls].
  destruct (sarama.outcome b (sarama.calls b)) as [[part off]|err] eqn:Hout.
  - eexists _, _. split; [reflexivity|]. cbn.
    repeat split; reflexivity.
  - unfold onFailure, setState. cbn [succeeded state with_counts with_gen toNewGeneration with_state].
    case_decide; [done|].
    eexists _, _. split; [reflexivity|]. cbn.
    repeat split; reflexivity.
Qed.
Lemma Publish_halfopen ctx topic event p clk :
  producer_breaker (cb p) ->
  state (cb p) = StateHalfOpen -> Requests (counts (cb p)) < 3 ->
  serializable event ->
  exists p' r,
    Publish ctx topic event p clk = (p', tick (tick clk), r)
    /\ sarama.outcome (producer.producer p') = sarama.outcome (producer.producer p)
    /\ sarama.calls (producer.producer p') = S (sarama.calls (producer.producer p))
    /\ producer_breaker (cb p')
    /\ match sarama.outcome (producer.producer p) (sarama.calls (producer.producer p)) with
       | Ok _ =>
           r = None
           /\ let c := Counts_onSuccess (Counts_onRequest (counts (cb p))) in
              if 3 <=? ConsecutiveSuccesses c then
                state (cb p') = StateClosed
                /\ counts (cb p') = Counts_clear
                /\ expiry (cb p') = Some (reading (tick clk) + 10 * time.Second)
              else cb p' = with_counts (cb p) c
       | Err err =>
           r = Some (Errorf_w ("failed to publish to " +:+ topic +:+ ": ") err)
           /\ state (cb p') = StateOpen
           /\ expiry (cb p') = Some (reading (tick clk) + 30 * time.Second)
           /\ counts (cb p') = Counts_clear
       end.
Proof.
  intros Hb Hs Hq [payload Hm]. rewrite (Publish_gated _ _ _ _ _ payload Hm).
  destruct (Tracer_Start ctx (tracer p)) as [[c tid] tr].
  destruct p as [b cb l t]. cbn [producer.producer producer.cb producer.logger] in *.
  destruct Hb as (Hn & Hmax & Hi & Ht & Hr & Ho).
  destruct cb as [n m i to rt osc st g cn ex]. cbn in Hn, Hmax, Hi, Ht, Hr, Ho, Hs, Hq.
  subst n m i to rt osc st.
  rewrite Execute_admitted.
  2:{ apply currentState_halfopen. reflexivity. }
  2:{ right. cbn. split; [reflexivity|lia]. }
  2:{ intros w'. apply currentState_halfopen. reflexivity. }
  cbv zeta. unfold send at 1. cbn [fst snd sarama.SendMessage sarama.Broker_SyncProducer].
  unfold sarama.Broker_SendMessage.
  destruct (sarama.outcome b (sarama.calls b)) as [[part off]|err] eqn:Hout.
  - unfold onSuccess. cbn [succeeded state with_counts with_gen maxRequests counts].
    destruct (3 <=? _) eqn:Hclose.
    + unfold setState. cbn [state]. case_decide; [done|].
      eexists _, _. split; [reflexivity|]. cbn.
      repeat split; reflexivity.
    + eexists _, _. split; [reflexivity|]. cbn.
      repeat split; reflexivity.
  - unfold onFailure, setState. cbn [succeeded state with_counts with_gen].
    case_decide; [done|].
    eexists _, _. split; [reflexivity|]. cbn.
    repeat split; reflexivity.
Qed.
End BrokerFacts.

(** ** The breaker as the producer configures it *)

Lemma Is_publish_error (topic : string) (cause : error) :
  Is (Errorf_w ("failed to publish to " +:+ topic +:+ ": ") cause) cause = true.
Proof.
  unfold Errorf_w. cbn [Is]. case_decide; [reflexivity|].
  destruct cause; cbn [Is]; case_decide; congruence.
Qed.

(** C1, as amended.  Take a breaker built by [NewProducer] at the start of
    an evaluation window (closed, counters cleared) and a run of publishes
    that all fall inside that window.  If the run has at least three
    sends, at least 0.6 of them fail and the last one fails, the breaker is
    open after the run.  A run leaves the breaker closed or open; if
    closed, every event was sent.  If open, the breaker was opened by a
    send that failed, when at least three sends had been counted and at
    least 0.6 of them had failed, and the transport has seen no send after
    that one: the trip condition is only looked at when a send fails,
    never on a success.  The timer of the open breaker stands at thirty
    seconds after the trip, which is the time [afterRequest] read when that
    send returned.  From then on and as long as the clock has not passed
    that time, every publish returns an error that wraps the circuit-open
    error, and neither the transport nor the breaker changes.  Two
    successes followed by three failures are the instance with five sends
    and three failures. *)
Theorem breaker_trips_on_failure_ratio
        ctx topic (events : list Event) (p : Producer sarama.Broker) clk e :
  producer_breaker (cb p) ->
  state (cb p) = StateClosed ->
  counts (cb p) = Counts_clear ->
  expiry (cb p) = Some e ->
  within clk (e - 10 * time.Second) e ->
  Forall serializable events ->
  Z.of_nat (length events) < 2 ^ 32 ->
  let b := producer.producer p in
  let p' := (feed ctx topic events p clk).1.1 in
  ((3 <= length events)%nat ->
   3 * Z.of_nat (length events)
   <= 5 * failures (sarama.outcome b) (sarama.calls b) (length events) ->
   succeeded (sarama.outcome b (sarama.calls b + length events - 1)%nat) = false ->
   state (cb p') = StateOpen)
  /\ (state (cb p') = StateClosed \/ state (cb p') = StateOpen)
  /\ (state (cb p') = StateClosed ->
      sarama.calls (producer.producer p') = (sarama.calls b + length events)%nat)
  /\ (state (cb p') = StateOpen ->
      exists j,
        (j < length events)%nat
        /\ succeeded (sarama.outcome b (sarama.calls b + j)%nat) = false
        /\ 3 <= Z.of_nat j + 1
        /\ 3 * (Z.of_nat j + 1) <= 5 * failures (sarama.outcome b) (sarama.calls b) (S j)
        /\ sarama.calls (producer.producer p') = (sarama.calls b + j + 1)%nat
        /\ let cooldown := readings clk (ticks clk + 2 * j + 1)%nat + 30 * time.Second in
           expiry (cb p') = Some cooldown
           /\ forall ctx' topic' (more : list Event) clk',
               Forall serializable more ->
               (forall i, (ticks clk' <= i)%nat -> readings clk' i <= cooldown) ->
               let '(q, _, rs) := feed ctx' topic' more p' clk' in
               length rs = length more
               /\ Forall (fun r => exists err, r = Some err /\ Is err ErrOpenState = true) rs
               /\ producer.producer q = producer.producer p'
               /\ cb q = cb p').
Proof.
  intros Hb Hs Hc He Hw Hev Hlt b p'.
  pose proof (feed_window ctx topic events Hev p clk e 0%nat 0 Hb Hs He Hw) as H.
  rewrite Hc in H. cbn [Requests TotalFailures Counts_clear] in H.
  specialize (H eq_refl eq_refl ltac:(lia) ltac:(lia)). cbv zeta in H.
  fold b in H. fold p' in H.
  destruct H as [(Ho & j & Hj & Hfail & H3 & Hr & Hsent & Hx)
                |(Hcl & Hq & Hf & Hsent & Htrip)].
  - split; [intros; assumption|]. split; [now right|].
    split; [rewrite Ho; discriminate|].
    intros _. exists j.
    split; [assumption|]. split; [assumption|]. split; [lia|]. split; [lia|].
    split; [assumption|]. split; [assumption|].
    intros ctx' topic' more clk' Hmore Hclk.
    destruct (feed_open ctx' topic' more p' clk' _ Ho Hx Hclk Hmore)
      as (q & clk2 & Hfeed & Hcb & Hpr).
    rewrite Hfeed. split; [now rewrite length_replicate|].
    split; [|split; assumption].
    apply Forall_replicate. eexists. split; [reflexivity|]. apply Is_publish_error.
  - split; [|split; [now left|split; [intros; assumption|rewrite Hcl; discriminate]]].
    intros Hn Hratio Hlast. exfalso.
    assert (Hne : events <> []) by (destruct events; cbn in Hn; [lia | discriminate]).
    specialize (Htrip Hne Hlast).
    assert (ReadyToTrip (counts (cb p')) = true) as Ht; [|congruence].
    apply ReadyToTrip_spec. rewrite Hq, Hf. lia.
Qed.

Lemma steady_within (k : nat) :
  within (mkClock (readings sample.steady) k) 0 (10 * time.Second).
Proof.
  intros i _. cbn. unfold time.Millisecond, time.Second. lia.
Qed.

(** Two successes and then three failures inside one window, on a new
    producer: the run meets the conditions above and leaves the breaker
    open. *)
Lemma two_successes_three_failures_trip :
  let p := (sample.fresh [2; 3; 4]%nat sample.steady).1 in
  let clk := (sample.fresh [2; 3; 4]%nat sample.steady).2 in
  let events := replicate 5 sample.event in
  (producer_breaker (cb p) /\ state (cb p) = StateClosed
   /\ counts (cb p) = Counts_clear /\ expiry (cb p) = Some (10 * time.Second))
  /\ within clk (10 * time.Second - 10 * time.Second) (10 * time.Second)
  /\ Forall serializable events
  /\ 3 * 5 <= 5 * failures (sarama.outcome (producer.producer p)) 0 5
  /\ state (cb (feed None "test-topic" events p clk).1.1) = StateOpen.
Proof.
  intros p clk events.
  assert (Hpre : producer_breaker (cb p) /\ state (cb p) = StateClosed
                 /\ counts (cb p) = Counts_clear /\ expiry (cb p) = Some (10 * time.Second))
    by (repeat split; reflexivity).
  assert (Hw : within clk (10 * time.Second - 10 * time.Second) (10 * time.Second))
    by exact (steady_within 1).
  assert (Hev : Forall serializable events)
    by (apply Forall_replicate; eexists; reflexivity).
  assert (Hr : 3 * 5 <= 5 * failures (sarama.outcome (producer.producer p)) 0 5)
    by (vm_compute; discriminate).
  split; [exact Hpre|]. split; [exact Hw|]. split; [exact Hev|]. split; [exact Hr|].
  destruct Hpre as (Hb & Hs & Hc & He).
  exact (proj1 (breaker_trips_on_failure_ratio None "test-topic" events p clk
                  (10 * time.Second) Hb Hs Hc He Hw Hev ltac:(cbn; lia))
               ltac:(cbn; lia) Hr eq_refl).
Defined.

(** The same run, evaluated: the five results, the state, and the
    publish that follows. *)
Example two_successes_three_failures_run :
  let '(p', clk', rs) := sample.after [2; 3; 4]%nat sample.steady 5 in
  rs = [None; None;
        Some (Errorf_w "failed to publish to test-topic: " sample.kafka_error);
        Some (Errorf_w "failed to publish to test-topic: " sample.kafka_error);
        Some (Errorf_w "failed to publish to test-topic: " sample.kafka_error)]
  /\ state (cb p') = StateOpen
  /\ expiry (cb p') = Some (30 * time.Second + 10 * time.Millisecond)
  /\ sarama.calls (producer.producer p') = 5%nat
  /\ let '(q, _, r) := Publish None "test-topic" sample.event p' clk' in
     r = Some (Errorf_w "failed to publish to test-topic: " ErrOpenState)
     /\ sarama.calls (producer.producer q) = 5%nat
     /\ state (cb q) = StateOpen.
Proof. vm_compute. repeat split; reflexivity. Qed.

(** C1 as it is written fails: two failures and then a success are three
    calls in one window with a failure ratio of 2/3, and the breaker stays
    closed, because a success never consults the trip condition. *)
Lemma high_ratio_ending_in_success_stays_closed :
  let p := (sample.fresh [0; 1]%nat sample.steady).1 in
  let clk := (sample.fresh [0; 1]%nat sample.steady).2 in
  let events := replicate 3 sample.event in
  (producer_breaker (cb p) /\ state (cb p) = StateClosed
   /\ counts (cb p) = Counts_clear /\ expiry (cb p) = Some (10 * time.Second))
  /\ within clk (10 * time.Second - 10 * time.Second) (10 * time.Second)
  /\ Forall serializable events
  /\ (3 <= length events)%nat
  /\ 3 * Z.of_nat (length events)
     <= 5 * failures (sarama.outcome (producer.producer p))
                     (sarama.calls (producer.producer p)) (length events)
  /\ (feed None "test-topic" events p clk).2
     = [Some (Errorf_w "failed to publish to test-topic: " sample.kafka_error);
        Some (Errorf_w "failed to publish to test-topic: " sample.kafka_error);
        None]
  /\ state (cb (feed None "test-topic" events p clk).1.1) = StateClosed
  /\ state (cb (feed None "test-topic" events p clk).1.1) <> StateOpen.
Proof.
  intros p clk events.
  split; [repeat split; reflexivity|].
  split; [exact (steady_within 1)|].
  split; [apply Forall_replicate; eexists; reflexivity|].
  split; [cbn; lia|].
  split; [vm_compute; discriminate|].
  split; [vm_compute; reflexivity|].
  split; [vm_compute; reflexivity|].
  vm_compute. discriminate.
Qed.

(** C3, as amended.  Once the cooldown of an open breaker has run out, the
    next publish is let through to the transport.  If that send fails, the
    breaker is open again with a new cooldown of thirty seconds counted
    from the failure.  If it succeeds, the breaker is half-open, not
    closed, with one request and one success on its counters; it stays
    half-open after a second success, and the third success in a row
    closes it and clears the counters.  A probe that fails, be it the
    first, the second or the third, opens the breaker again, with the
    counters cleared and thirty seconds on the timer from that
    failure. *)
Theorem probes_after_cooldown
        ctx topic (e1 e2 e3 : Event) (p : Producer sarama.Broker) clk e :
  producer_breaker (cb p) ->
  state (cb p) = StateOpen ->
  expiry (cb p) = Some e ->
  e < reading clk ->
  serializable e1 -> serializable e2 -> serializable e3 ->
  let answer i := sarama.outcome (producer.producer p)
                    (sarama.calls (producer.producer p) + i)%nat in
  let '(p1, clk1, r1) := Publish ctx topic e1 p clk in
  sarama.calls (producer.producer p1) = S (sarama.calls (producer.producer p))
  /\ (succeeded (answer 0%nat) = false ->
      r1 <> None
      /\ state (cb p1) = StateOpen
      /\ counts (cb p1) = Counts_clear
      /\ expiry (cb p1) = Some (reading (tick clk) + 30 * time.Second))
  /\ (succeeded (answer 0%nat) = true ->
      r1 = None
      /\ state (cb p1) = StateHalfOpen
      /\ counts (cb p1) = mkCounts 1 1 0 1 0
      /\ let '(p2, clk2, r2) := Publish ctx topic e2 p1 clk1 in
         (succeeded (answer 1%nat) = false ->
          r2 <> None
          /\ state (cb p2) = StateOpen
          /\ counts (cb p2) = Counts_clear
          /\ expiry (cb p2) = Some (reading (tick clk1) + 30 * time.Second))
         /\ (succeeded (answer 1%nat) = true ->
             r2 = None
             /\ state (cb p2) = StateHalfOpen
             /\ counts (cb p2) = mkCounts 2 2 0 2 0
             /\ let '(p3, _, r3) := Publish ctx topic e3 p2 clk2 in
                (succeeded (answer 2%nat) = false ->
                 r3 <> None
                 /\ state (cb p3) = StateOpen
                 /\ counts (cb p3) = Counts_clear
                 /\ expiry (cb p3) = Some (reading (tick clk2) + 30 * time.Second))
                /\ (succeeded (answer 2%nat) = true ->
                    r3 = None
                    /\ state (cb p3) = StateClosed
                    /\ counts (cb p3) = Counts_clear))).
Proof.
  intros Hb Hs He Hcool H1 H2 H3 answer. subst answer. cbv beta.
  rewrite Nat.add_0_r.
  destruct (Publish_probe ctx topic e1 p clk e Hb Hs He Hcool H1)
    as (p1 & r1 & -> & Hout1 & Hcalls1 & Hb1 & Hcase1).
  split; [assumption|].
  destruct (sarama.outcome _ (sarama.calls (producer.producer p))) as [po|err].
  - destruct Hcase1 as (-> & Hs1 & Hc1 & Hx1).
    split; [discriminate|]. intros _.
    split; [reflexivity|]. split; [assumption|]. split; [assumption|].
    destruct (Publish_halfopen ctx topic e2 p1 (tick (tick clk)) Hb1 Hs1) as
      (p2 & r2 & -> & Hout2 & Hcalls2 & Hb2 & Hcase2); [rewrite Hc1; cbn; lia | assumption |].
    rewrite Hout1, Hcalls1 in Hcase2. rewrite Hc1 in Hcase2.
    replace (sarama.calls (producer.producer p) + 1)%nat
      with (S (sarama.calls (producer.producer p))) by lia.
    destruct (sarama.outcome _ (S (sarama.calls (producer.producer p)))) as [po2|err2].
    + destruct Hcase2 as (-> & Hcb2). cbn in Hcb2.
      split; [discriminate|]. intros _.
      split; [reflexivity|]. split; [now rewrite Hcb2|]. split; [now rewrite Hcb2|].
      destruct (Publish_halfopen ctx topic e3 p2 (tick (tick (tick (tick clk)))) Hb2) as
        (p3 & r3 & -> & Hout3 & Hcalls3 & Hb3 & Hcase3);
        [now rewrite Hcb2 | rewrite Hcb2; vm_compute; reflexivity | assumption |].
      rewrite Hout2, Hcalls2, Hout1, Hcalls1 in Hcase3.
      replace (sarama.calls (producer.producer p) + 2)%nat
        with (S (S (sarama.calls (producer.producer p)))) by lia.
      destruct (sarama.outcome _ (S (S (sarama.calls (producer.producer p))))) as [po3|err3].
      * destruct Hcase3 as (-> & Hcase3).
        rewrite Hcb2 in Hcase3. cbn in Hcase3.
        destruct Hcase3 as (Hs3 & Hc3 & _).
        split; [discriminate|]. intros _. auto.
      * destruct Hcase3 as (-> & Hs3 & Hx3 & Hc3).
        split; [|discriminate]. intros _. split; [discriminate|]. auto.
    + destruct Hcase2 as (-> & Hs2 & Hx2 & Hc2).
      split; [|discriminate]. intros _. split; [discriminate|]. auto.
  - destruct Hcase1 as (-> & Hs1 & Hx1 & Hc1).
    split; [|discriminate]. intros _.
    split; [discriminate|]. auto.
Qed.

(** A producer whose first three sends failed, a minute later: the
    cooldown has run out, and a single successful probe leaves the breaker
    half-open. *)
Lemma probe_after_three_failures :
  let p := (sample.after [0; 1; 2]%nat (sample.jumping 7) 3).1.1 in
  let clk := (sample.after [0; 1; 2]%nat (sample.jumping 7) 3).1.2 in
  (producer_breaker (cb p) /\ state (cb p) = StateOpen
   /\ expiry (cb p) = Some (30 * time.Second + 6 * time.Millisecond))
  /\ 30 * time.Second + 6 * time.Millisecond < reading clk
  /\ serializable sample.event
  /\ let '(p1, _, r1) := Publish None "test-topic" sample.event p clk in
     sarama.calls (producer.producer p1) = S (sarama.calls (producer.producer p))
     /\ r1 = None
     /\ state (cb p1) = StateHalfOpen
     /\ counts (cb p1) = mkCounts 1 1 0 1 0.
Proof.
  intros p clk.
  assert (Hpre : producer_breaker (cb p) /\ state (cb p) = StateOpen
                 /\ expiry (cb p) = Some (30 * time.Second + 6 * time.Millisecond))
    by (vm_compute; repeat split; reflexivity).
  assert (Hcool : 30 * time.Second + 6 * time.Millisecond < reading clk)
    by (vm_compute; reflexivity).
  assert (Hser : serializable sample.event) by (eexists; reflexivity).
  split; [exact Hpre|]. split; [exact Hcool|]. split; [exact Hser|].
  destruct Hpre as (Hb & Hs & He).
  pose proof (probes_after_cooldown None "test-topic" sample.event sample.event sample.event
                p clk _ Hb Hs He Hcool Hser Hser Hser) as H.
  cbv zeta in H.
  destruct (Publish None "test-topic" sample.event p clk) as [[p1 clk1] r1].
  destruct H as (Hcalls & _ & Hok).
  destruct (Hok eq_refl) as (Hr & Hs1 & Hc1 & _).
  auto.
Defined.

(** C3 as it is written fails: with [MaxRequests] set to 3, one
    successful probe does not close the breaker.  Here the breaker has
    tripped on three failed sends and a minute has passed; the next publish
    succeeds and leaves the breaker half-open with its counters at one
    request and one success. *)
Lemma single_successful_probe_does_not_close :
  let p := (sample.after [0; 1; 2]%nat (sample.jumping 7) 3).1.1 in
  let clk := (sample.after [0; 1; 2]%nat (sample.jumping 7) 3).1.2 in
  (producer_breaker (cb p) /\ state (cb p) = StateOpen
   /\ expiry (cb p) = Some (30 * time.Second + 6 * time.Millisecond))
  /\ 30 * time.Second + 6 * time.Millisecond < reading clk
  /\ serializable sample.event
  /\ (Publish None "test-topic" sample.event p clk).2 = None
  /\ state (cb (Publish None "test-topic" sample.event p clk).1.1) = StateHalfOpen
  /\ state (cb (Publish None "test-topic" sample.event p clk).1.1) <> StateClosed
  /\ counts (cb (Publish None "test-topic" sample.event p clk).1.1) <> Counts_clear.
Proof.
  intros p clk.
  split; [vm_compute; repeat split; reflexivity|].
  split; [vm_compute; reflexivity|].
  split; [eexists; reflexivity|].
  split; [vm_compute; reflexivity|].
  split; [vm_compute; reflexivity|].
  split; vm_compute; discriminate.
Qed.

(** ** Publish *)

(** C5.  An event whose body cannot be encoded makes [Publish] return the
    encoder's error, wrapped, at once: the transport, the breaker with its
    state and counters, the log and the clock are as before, so nothing was
    sent, counted or tried again. *)
Theorem unencodable_event_is_refused
        {T : Type} `{!sarama.SyncProducer T}
        ctx topic (event : Event) (p : Producer T) clk err :
  json_Marshal event = Err err ->
  let '(p', clk', r) := Publish ctx topic event p clk in
  r = Some (Errorf_w "failed to marshal event: " err)
  /\ Unwrap (Errorf_w "failed to marshal event: " err) = Some err
  /\ producer.producer p' = producer.producer p
  /\ cb p' = cb p
  /\ logger p' = logger p
  /\ clk' = clk.
Proof.
  intros Hm. unfold Publish.
  destruct (Tracer_Start ctx (tracer p)) as [[c tid] tr]. rewrite Hm.
  repeat split; reflexivity.
Qed.

Lemma unencodable_sample_is_refused :
  json_Marshal sample.unencodable = Err (errorString "json: unsupported type: chan int")
  /\ let p := (sample.fresh [] sample.steady).1 in
     let clk := (sample.fresh [] sample.steady).2 in
     let '(p', clk', r) := Publish None "test-topic" sample.unencodable p clk in
     r = Some (Errorf_w "failed to marshal event: "
                        (errorString "json: unsupported type: chan int"))
     /\ sarama.calls (producer.producer p') = 0%nat
     /\ cb p' = cb p.
Proof.
  split; [reflexivity|]. intros p clk.
  pose proof (unencodable_event_is_refused None "test-topic" sample.unencodable p clk
                (errorString "json: unsupported type: chan int") eq_refl) as H.
  destruct (Publish None "test-topic" sample.unencodable p clk) as [[p' clk'] r].
  destruct H as (Hr & _ & Hp & Hcb & _).
  split; [exact Hr|]. split; [now rewrite Hp | exact Hcb].
Defined.

Section PublishResult.
Context {T : Type} `{!sarama.SyncProducer T}.
Implicit Types (p : Producer T) (clk : Clock) (event : Event).

(** A successful publish on a closed breaker, inside the window. *)
Lemma Publish_closed_success ctx topic event p clk e p' clk' :
  state (cb p) = StateClosed -> expiry (cb p) = Some e ->
  reading clk <= e -> reading (tick clk) <= e ->
  Publish ctx topic event p clk = (p', clk', None) ->
  cb p' = with_counts (cb p) (Counts_onSuccess (Counts_onRequest (counts (cb p)))).
Proof.
  intros Hs He H1 H2 Hp. unfold Publish in Hp.
  destruct (Tracer_Start ctx (tracer p)) as [[c tid] tr].
  destruct (json_Marshal event) as [payload|err]; [|discriminate].
  rewrite Execute_admitted in Hp.
  2:{ eapply currentState_closed; eauto. }
  2:{ now left. }
  2:{ intros w'. eapply currentState_closed; eauto. }
  cbv zeta in Hp.
  destruct (send topic _ _) as [w1 [[]|err]]; cbn [succeeded] in Hp.
  - rewrite Hs in Hp. cbn [onSuccess] in Hp. inversion Hp. reflexivity.
  - destruct (onFailure _ _ _ _). discriminate.
Qed.

(** C6, as amended.  For an event that can be encoded, [Publish]
    returns no error exactly when the breaker lets the request through
    and the transport accepts the record.  When the breaker refuses, the
    cause is the circuit-open or the too-many-requests error and the
    transport is not touched; when the transport fails, the cause is its
    error.  Either way the returned error wraps the cause and its text
    names the topic and the cause.  A success on a closed breaker inside
    its window leaves state, generation and expiry alone and changes the
    counters by one request and one success (which also resets the
    consecutive failures); in the half-open state a success may close the
    breaker instead. *)
Theorem publish_succeeds_iff_gated_send_does
        ctx topic event p clk payload :
  producer_breaker (cb p) ->
  json_Marshal event = Ok payload ->
  let msg := outbound topic event payload (Tracer_Start ctx (tracer p)).1.2 in
  let gate := (beforeRequest (cb p) clk (producer.producer p, logger p)).2 in
  let sent := (sarama.SendMessage msg (producer.producer p)).2 in
  let '(p', clk', r) := Publish ctx topic event p clk in
  (r = None <-> succeeded gate = true /\ succeeded sent = true)
  /\ (forall cause, gate = Err cause ->
        (cause = ErrOpenState \/ cause = ErrTooManyRequests)
        /\ r = Some (Errorf_w ("failed to publish to " +:+ topic +:+ ": ") cause)
        /\ producer.producer p' = producer.producer p)
  /\ (forall cause, succeeded gate = true -> sent = Err cause ->
        r = Some (Errorf_w ("failed to publish to " +:+ topic +:+ ": ") cause))
  /\ (forall err, r = Some err ->
        exists cause,
          Unwrap err = Some cause
          /\ Error err = ("failed to publish to " +:+ topic +:+ ": ") +:+ Error cause)
  /\ (forall e, state (cb p) = StateClosed -> expiry (cb p) = Some e ->
        reading clk <= e -> reading (tick clk) <= e -> r = None ->
        cb p' = with_counts (cb p) (Counts_onSuccess (Counts_onRequest (counts (cb p))))).
Proof.
  intros Hb Hm msg gate sent.
  pose proof (Publish_cases ctx topic event p clk payload Hb Hm) as Hc.
  cbv zeta in Hc. fold msg in Hc.
  destruct (Publish ctx topic event p clk) as [[p' clk'] r] eqn:Hp.
  destruct Hc as [Hb' Hc]. subst gate sent.
  destruct (beforeRequest (cb p) clk (producer.producer p, logger p))
    as [[[cb1 clk1] w1] [g|cause]]; cbn [snd succeeded].
  - destruct Hc as (Hprod & Hclk & Hsent).
    destruct ((sarama.SendMessage msg (producer.producer p)).2) as [po|cause];
      cbn [succeeded]; subst r.
    + split; [tauto|]. split; [discriminate|]. split; [discriminate|].
      split; [discriminate|].
      intros e Hs He H1 H2 _.
      exact (Publish_closed_success ctx topic event p clk e p' clk' Hs He H1 H2 Hp).
    + split; [split; [discriminate | intros [_ ?]; discriminate]|].
      split; [discriminate|]. split; [intros ? _ [= <-]; reflexivity|].
      split; [|discriminate].
      intros err [= <-]. exists cause. split; reflexivity.
  - destruct Hc as (Hcause & -> & Hprod & _ & _).
    split; [split; [discriminate | intros [? _]; discriminate]|].
    split; [intros ? [= <-]; auto|]. split; [discriminate|].
    split; [|discriminate].
    intros err [= <-]. exists cause. split; reflexivity.
Qed.

End PublishResult.

(** A first publish on a new producer: it succeeds, and the counters show
    one request and one success. *)
Lemma first_publish_succeeds :
  let p := (sample.fresh [] sample.steady).1 in
  let clk := (sample.fresh [] sample.steady).2 in
  producer_breaker (cb p)
  /\ json_Marshal sample.event = Ok "{}"
  /\ let '(p', _, r) := Publish None "test-topic" sample.event p clk in
     r = None
     /\ state (cb p') = StateClosed
     /\ counts (cb p') = mkCounts 1 1 0 1 0.
Proof.
  intros p clk.
  assert (Hb : producer_breaker (cb p)) by (repeat split; reflexivity).
  split; [exact Hb|]. split; [reflexivity|].
  pose proof (publish_succeeds_iff_gated_send_does None "test-topic" sample.event p clk
                "{}" Hb eq_refl) as Hc.
  cbv zeta in Hc.
  destruct (Publish None "test-topic" sample.event p clk) as [[p' clk'] r].
  destruct Hc as (Hiff & _ & _ & _ & Hcounts).
  assert (Hr : r = None) by (apply Hiff; split; reflexivity).
  split; [exact Hr|].
  rewrite (Hcounts (10 * time.Second) eq_refl eq_refl
             ltac:(vm_compute; discriminate) ltac:(vm_compute; discriminate) Hr).
  split; reflexivity.
Defined.

(** C6 as it is written fails in its last part: the third successful
    probe of a half-open breaker returns no error and moves the breaker to
    the closed state, in a new generation with cleared counters. *)
Lemma successful_publish_can_change_the_state :
  let p := (sample.after [0; 1; 2]%nat (sample.jumping 7) 5).1.1 in
  let clk := (sample.after [0; 1; 2]%nat (sample.jumping 7) 5).1.2 in
  producer_breaker (cb p)
  /\ serializable sample.event
  /\ state (cb p) = StateHalfOpen
  /\ counts (cb p) = mkCounts 2 2 0 2 0
  /\ (Publish None "test-topic" sample.event p clk).2 = None
  /\ state (cb (Publish None "test-topic" sample.event p clk).1.1) = StateClosed
  /\ counts (cb (Publish None "test-topic" sample.event p clk).1.1) = Counts_clear
  /\ state (cb (Publish None "test-topic" sample.event p clk).1.1) <> state (cb p).
Proof.
  intros p clk.
  split; [vm_compute; repeat split; reflexivity|].
  split; [eexists; reflexivity|].
  split; [vm_compute; reflexivity|].
  split; [vm_compute; reflexivity|].
  split; [vm_compute; reflexivity|].
  split; [vm_compute; reflexivity|].
  split; [vm_compute; reflexivity|].
  vm_compute. discriminate.
Qed.

(** ** Batches *)

Section Batches.
Implicit Types (p : Producer sarama.Broker) (clk : Clock) (event : Event).

(** What one publish adds to the records the transport holds. *)
Lemma Publish_delivered ctx topic event p clk :
  producer_breaker (cb p) ->
  let '(p', _, r) := Publish ctx topic event p clk in
  producer_breaker (cb p')
  /\ match r with
     | None =>
         exists msg,
           carries topic event msg
           /\ sarama.delivered (producer.producer p')
              = sarama.delivered (producer.producer p) ++ [msg]
     | Some _ =>
         sarama.delivered (producer.producer p')
         = sarama.delivered (producer.producer p)
     end.
Proof.
  intros Hb. destruct (json_Marshal event) as [payload|err] eqn:Hm.
  - pose proof (Publish_cases ctx topic event p clk payload Hb Hm) as Hc.
    cbv zeta in Hc.
    destruct (Publish ctx topic event p clk) as [[p' clk'] r].
    destruct Hc as [Hb' Hc]. split; [exact Hb'|].
    destruct (beforeRequest _ _ _) as [[[cb1 clk1] w1] [g|cause]].
    + destruct Hc as (Hprod & _ & Hsent). rewrite Hprod.
      cbn [sarama.SendMessage sarama.Broker_SyncProducer] in *.
      unfold sarama.Broker_SendMessage in *.
      destruct (sarama.outcome _ _) as [po|cause]; cbn [fst snd] in *; subst r.
      * eexists. split; [|reflexivity]. repeat split. exact Hm.
      * reflexivity.
    + destruct Hc as (_ & -> & -> & _). reflexivity.
  - unfold Publish. destruct (Tracer_Start ctx (tracer p)) as [[c tid] tr].
    rewrite Hm. split; [exact Hb | reflexivity].
Qed.

Lemma PublishBatch_range_spec ctx topic events :
  forall p clk,
  producer_breaker (cb p) ->
  let '(p', clk', r) := PublishBatch_range ctx topic events p clk in
  match r with
  | None =>
      published ctx topic events (p, clk) (p', clk')
      /\ exists msgs,
          Forall2 (carries topic) events msgs
          /\ sarama.delivered (producer.producer p')
             = sarama.delivered (producer.producer p) ++ msgs
  | Some err =>
      exists pre event post mid msgs,
        events = pre ++ event :: post
        /\ published ctx topic pre (p, clk) mid
        /\ Publish ctx topic event mid.1 mid.2 = (p', clk', Some err)
        /\ Forall2 (carries topic) pre msgs
        /\ sarama.delivered (producer.producer p')
           = sarama.delivered (producer.producer p) ++ msgs
  end.
Proof.
  induction events as [|event events IH]; intros p clk Hb; cbn [PublishBatch_range].
  - split; [constructor|]. exists []. split; [constructor|]. now rewrite app_nil_r.
  - pose proof (Publish_delivered ctx topic event p clk Hb) as Hd.
    destruct (Publish ctx topic event p clk) as [[p1 clk1] [err|]] eqn:Hp.
    + destruct Hd as [_ Hd]. exists [], event, events, (p, clk), [].
      split; [reflexivity|]. split; [constructor|]. split; [exact Hp|].
      split; [constructor|]. now rewrite app_nil_r.
    + destruct Hd as [Hb1 (msg & Hmsg & Hd)].
      specialize (IH p1 clk1 Hb1).
      destruct (PublishBatch_range ctx topic events p1 clk1) as [[p' clk'] [err|]].
      * destruct IH as (pre & ev & post & mid & msgs & -> & Hpub & Hfail & Hall & Hdel).
        exists (event :: pre), ev, post, mid, (msg :: msgs).
        split; [reflexivity|]. split; [econstructor; eassumption|].
        split; [exact Hfail|]. split; [constructor; assumption|].
        rewrite Hdel, Hd, <- app_assoc. reflexivity.
      * destruct IH as (Hpub & msgs & Hall & Hdel).
        split; [econstructor; eassumption|].
        exists (msg :: msgs). split; [constructor; assumption|].
        rewrite Hdel, Hd, <- app_assoc. reflexivity.
Qed.

(** C7.  [PublishBatch] publishes the events in list order, each inside
    the batch's span.  If it returns no error, every publish succeeded and
    the transport holds one new record per event, in order.  If it returns
    an error, that error is the result of the first publish that failed;
    the events before it were published and their records are still with
    the transport, in order, and nothing after it was sent. *)
Theorem batch_stops_at_first_failure ctx topic events p clk :
  producer_breaker (cb p) ->
  let ctx' := (Tracer_Start ctx (tracer p)).1.1 in
  let start :=
    (mkProducer (producer.producer p) (cb p) (logger p) (Tracer_Start ctx (tracer p)).2,
     clk) in
  let '(p', clk', r) := PublishBatch ctx topic events p clk in
  match r with
  | None =>
      published ctx' topic events start (p', clk')
      /\ exists msgs,
          Forall2 (carries topic) events msgs
          /\ sarama.delivered (producer.producer p')
             = sarama.delivered (producer.producer p) ++ msgs
  | Some err =>
      exists pre event post mid msgs,
        events = pre ++ event :: post
        /\ published ctx' topic pre start mid
        /\ Publish ctx' topic event mid.1 mid.2 = (p', clk', Some err)
        /\ Forall2 (carries topic) pre msgs
        /\ sarama.delivered (producer.producer p')
           = sarama.delivered (producer.producer p) ++ msgs
  end.
Proof.
  intros Hb ctx' start. subst ctx' start. unfold PublishBatch.
  destruct (Tracer_Start ctx (tracer p)) as [[c tid] tr]. cbn [fst snd].
  exact (PublishBatch_range_spec c topic events
           (mkProducer (producer.producer p) (cb p) (logger p) tr) clk Hb).
Qed.

End Batches.

(** A batch of three whose second send fails: the batch returns the
    second publish's error, and the record of the first event stays with
    the transport. *)
Lemma batch_of_three_fails_at_second :
  let p := (sample.fresh [1]%nat sample.steady).1 in
  let clk := (sample.fresh [1]%nat sample.steady).2 in
  let events := replicate 3 sample.event in
  producer_breaker (cb p)
  /\ let '(p', clk', r) := PublishBatch None "test-topic" events p clk in
     r = Some (Errorf_w "failed to publish to test-topic: " sample.kafka_error)
     /\ exists pre event post msgs,
         events = pre ++ event :: post
         /\ Forall2 (carries "test-topic") pre msgs
         /\ sarama.delivered (producer.producer p')
            = sarama.delivered (producer.producer p) ++ msgs.
Proof.
  intros p clk events.
  assert (Hb : producer_breaker (cb p)) by (repeat split; reflexivity).
  split; [exact Hb|].
  pose proof (batch_stops_at_first_failure None "test-topic" events p clk Hb) as Hc.
  cbv zeta in Hc.
  assert (Hr : (PublishBatch None "test-topic" events p clk).2
               = Some (Errorf_w "failed to publish to test-topic: " sample.kafka_error))
    by (vm_compute; reflexivity).
  destruct (PublishBatch None "test-topic" events p clk) as [[p' clk'] r].
  cbn [snd] in Hr. subst r. split; [reflexivity|].
  destruct Hc as (pre & event & post & mid & msgs & Hsplit & _ & _ & Hall & Hdel).
  exists pre, event, post, msgs. auto.
Defined.

(** ** Construction *)

(** C9.  Whatever the [ProducerConfig] and the library's defaults, the
    configuration that [NewProducer] builds has the idempotent producer
    switched on and at most one open request per connection, and every
    producer that [NewProducer] returns has its transport made by
    [sarama.NewSyncProducer] from exactly that configuration. *)
Theorem new_producer_is_idempotent_single_flight
        {T : Type} `{!sarama.SyncProducer T}
        (defaults : sarama.Config)
        (dial : list string -> sarama.Config -> result T)
        (otel_Tracer : string -> Tracer)
        (cfg : ProducerConfig) (logger : Logger) (clk : Clock)
        (p : Producer T) (clk' : Clock) :
  NewProducer defaults dial otel_Tracer cfg logger clk = (Ok p, clk') ->
  exists config,
    dial (Brokers cfg) config = Ok (producer.producer p)
    /\ config = producerSaramaConfig defaults cfg
    /\ sarama.Producer_Idempotent config = true
    /\ sarama.Net_MaxOpenRequests config = 1
    /\ (sarama.Producer_Idempotent config = true -> sarama.Net_MaxOpenRequests config <= 1).
Proof.
  unfold NewProducer. intros Hnew.
  exists (producerSaramaConfig defaults cfg).
  destruct (dial (Brokers cfg) (producerSaramaConfig defaults cfg)) as [t|err] eqn:Hdial.
  - destruct (NewCircuitBreaker cbSettings clk) as [breaker clk1].
    inversion Hnew; subst. cbn. repeat split; discriminate.
  - discriminate.
Qed.

Lemma new_producer_sample_is_idempotent :
  sample.new_producer [] sample.steady
  = (Ok (sample.fresh [] sample.steady).1, (sample.fresh [] sample.steady).2)
  /\ exists config,
      sample.dial [] (Brokers sample.config) config = Ok (sample.broker [])
      /\ sarama.Producer_Idempotent config = true
      /\ sarama.Net_MaxOpenRequests config = 1.
Proof.
  assert (Hnew : sample.new_producer [] sample.steady
                 = (Ok (sample.fresh [] sample.steady).1, (sample.fresh [] sample.steady).2))
    by reflexivity.
  split; [exact Hnew|].
  destruct (new_producer_is_idempotent_single_flight
              sample.defaults (sample.dial []) (fun _ => sample.spans) sample.config []
              sample.steady _ _ Hnew) as (config & Hdial & _ & Hid & Hmax & _).
  exists config. auto.
Defined.

(** ** The partition claim loop *)

Section ClaimLoop.
Context {H : Type}.
Implicit Types (c : consumer.Consumer H) (session : sarama.ConsumerGroupSession)
         (message : sarama.ConsumerMessage) (sel : list consumer.selected).

(** A record whose handler fails: nothing is marked, one record is
    logged with the coordinates of the message, and the loop goes on. *)
Lemma ConsumeClaim_handler_fails message sel c session h err :
  consumer.handler c (Some (newTraceID (consumer.tracer c) (started (consumer.tracer c))))
                   message (consumer.handler_state c) = (h, Some err) ->
  consumer.ConsumeClaim (consumer.SelMessage message :: sel) c session =
    consumer.ConsumeClaim sel
      (consumer.with_handled c h
         (consumer.logger c
          ++ [mkEntry ErrorLevel "Failed to process message"
                      [zap_String "topic" (sarama.Topic message);
                       zap_Int32 "partition" (sarama.Partition message);
                       zap_Int64 "offset" (sarama.Offset message);
                       zap_Error err]])
         (mkTracer (newTraceID (consumer.tracer c)) (S (started (consumer.tracer c)))))
      session.
Proof. intros Hh. cbn. now rewrite Hh. Qed.

(** A record whose handler succeeds is marked. *)
Lemma ConsumeClaim_handler_succeeds message sel c session h :
  consumer.handler c (Some (newTraceID (consumer.tracer c) (started (consumer.tracer c))))
                   message (consumer.handler_state c) = (h, None) ->
  consumer.ConsumeClaim (consumer.SelMessage message :: sel) c session =
    consumer.ConsumeClaim sel
      (consumer.with_handled c h (consumer.logger c)
         (mkTracer (newTraceID (consumer.tracer c)) (S (started (consumer.tracer c)))))
      (sarama.MarkMessage message session).
Proof. intros Hh. cbn. now rewrite Hh. Qed.

Lemma int64_small z : - 2 ^ 63 <= z < 2 ^ 63 -> sarama.int64 z = z.
Proof. intros Hz. unfold sarama.int64. rewrite Z.mod_small; lia. Qed.

Lemma MarkMessage_marked message session cur :
  sarama.marked session !! (sarama.Topic message, sarama.Partition message) = Some cur ->
  sarama.marked (sarama.MarkMessage message session)
    !! (sarama.Topic message, sarama.Partition message)
  = Some (Z.max cur (sarama.int64 (sarama.Offset message + 1))).
Proof.
  intros Hcur. unfold sarama.MarkMessage, sarama.MarkOffset. rewrite Hcur.
  destruct (Z.ltb_spec cur (sarama.int64 (sarama.Offset message + 1))); cbn.
  - rewrite lookup_insert_eq. f_equal. lia.
  - rewrite Hcur. f_equal. lia.
Qed.

(** The mark of a claimed partition moves past a record whose handler
    failed as soon as the handler succeeds on a later record of that
    partition (offsets are not negative, and the later one is not the
    last [int64]). *)
Lemma later_success_marks_past_failed_record failed later c session cur h1 err h2 :
  sarama.Topic later = sarama.Topic failed ->
  sarama.Partition later = sarama.Partition failed ->
  0 <= sarama.Offset failed ->
  sarama.Offset failed < sarama.Offset later ->
  sarama.Offset later < 2 ^ 63 - 1 ->
  sarama.marked session !! (sarama.Topic failed, sarama.Partition failed) = Some cur ->
  consumer.handler c (Some (newTraceID (consumer.tracer c) (started (consumer.tracer c))))
                   failed (consumer.handler_state c) = (h1, Some err) ->
  consumer.handler c
    (Some (newTraceID (consumer.tracer c) (S (started (consumer.tracer c)))))
    later h1 = (h2, None) ->
  exists mark,
    sarama.marked
      (consumer.ConsumeClaim [consumer.SelMessage failed; consumer.SelMessage later]
                             c session).1.2
      !! (sarama.Topic failed, sarama.Partition failed) = Some mark
    /\ sarama.Offset failed + 1 < mark.
Proof.
  intros Ht Hp Hpos Hlt Hmax Hcur Hf Hs.
  rewrite (ConsumeClaim_handler_fails _ _ _ _ _ _ Hf).
  rewrite (ConsumeClaim_handler_succeeds _ _ _ _ h2) by exact Hs.
  cbn [consumer.ConsumeClaim fst snd].
  rewrite <- Ht, <- Hp in *.
  rewrite (MarkMessage_marked _ _ cur Hcur).
  rewrite int64_small by lia.
  eexists. split; [reflexivity|]. lia.
Qed.


(** C10.  Whatever the handler does, the claim loop returns exactly when
    the [select] has found the message channel closed or the session
    context done, and then it returns nil; until then it is waiting. *)
Theorem ConsumeClaim_returns_nil sel c session :
  (consumer.ConsumeClaim sel c session).2
  = (if existsb consumer.is_exit sel then consumer.Returned None else consumer.Blocked)
  /\ forall err, (consumer.ConsumeClaim sel c session).2 <> consumer.Returned (Some err).
Proof.
  assert (Heq : forall sel c session,
             (consumer.ConsumeClaim sel c session).2
             = (if existsb consumer.is_exit sel
                then consumer.Returned None else consumer.Blocked)).
  { clear. induction sel as [|[message| |] sel IH]; intros c session; cbn; try reflexivity.
    destruct (consumer.handler c _ message _) as [h [err|]]; apply IH. }
  split; [apply Heq|].
  intros err. rewrite Heq. destruct (existsb _ _); discriminate.
Qed.

End ClaimLoop.

(** C2, on the run that breaks it.  Records 5 and 6 of one partition are
    delivered, the handler fails on 5 and succeeds on 6.  The failure is
    logged with topic, partition and offset, the loop goes on and returns
    nil when the channel closes; but the offset marked for commit ends at
    7, so record 5 lies behind it and a later session does not deliver it
    again. *)
Theorem failed_record_is_committed_by_the_next_success :
  let '(c, session, r) :=
    consumer.ConsumeClaim
      [consumer.SelMessage (consumer_sample.record 5);
       consumer.SelMessage (consumer_sample.record 6);
       consumer.SelClosed]
      (consumer_sample.member (consumer_sample.failing_at 5))
      (consumer_sample.session_at 5) in
  r = consumer.Returned None
  /\ consumer.handler_state c = [5; 6]
  /\ consumer.logger c
     = [mkEntry ErrorLevel "Failed to process message"
                [zap_String "topic" consumer_sample.topic;
                 zap_Int32 "partition" 0;
                 zap_Int64 "offset" 5;
                 zap_Error consumer_sample.handler_error]]
  /\ sarama.marked session !! (consumer_sample.topic, 0) = Some 7.
Proof. vm_compute. repeat split; reflexivity. Qed.

(** ** Start *)

Section Supervision.
Context {H : Type}.
Implicit Types (c : consumer.Consumer H) (h : consumer.Chans)
         (rounds : list (consumer.consumed * bool)).


Lemma is_closed_close ch h :
  (ch < length h)%nat -> consumer.is_closed ch (consumer.close_chan ch h) = true.
Proof.
  intros Hlt. unfold consumer.is_closed, consumer.close_chan, consumer.Chans in *.
  now rewrite list_lookup_insert_eq.
Qed.

Lemma is_closed_close_other ch ch' h :
  ch <> ch' ->
  consumer.is_closed ch (consumer.close_chan ch' h) = consumer.is_closed ch h.
Proof.
  intros Hne. unfold consumer.is_closed, consumer.close_chan, consumer.Chans in *.
  now rewrite list_lookup_insert_ne.
Qed.

(** A new channel is open, and making it leaves the others alone. *)
Lemma is_closed_app ch h :
  consumer.is_closed ch (h ++ [false]) = consumer.is_closed ch h.
Proof.
  unfold consumer.is_closed, consumer.Chans in *.
  destruct (decide (ch < length h)%nat) as [Hlt|Hge].
  - now rewrite lookup_app_l.
  - rewrite lookup_app_r by lia.
    destruct (h !! ch) eqn:E; [apply lookup_lt_Some in E; lia|].
    now destruct (ch - length h)%nat as [|[|n]].
Qed.

Lemma is_closed_make ch h :
  (ch < length h)%nat ->
  consumer.is_closed ch (h ++ [false]) = consumer.is_closed ch h.
Proof. intros _. apply is_closed_app. Qed.

Lemma length_close ch h : length (consumer.close_chan ch h) = length h.
Proof. unfold consumer.close_chan, consumer.Chans in *. apply length_insert. Qed.

(** The wait group is given back when the loop returns, not before. *)
Lemma supervise_wg rounds :
  forall c h,
  consumer.wg (consumer.supervise rounds c h).1.1
  = (if existsb snd (completed rounds) then consumer.wg c - 1 else consumer.wg c)
  /\ consumer.cancel (consumer.supervise rounds c h).1.1 = consumer.cancel c.
Proof.
  induction rounds as [|[call cancelled] rounds IH]; intros c h; [now split|].
  destruct call as [err|ret|]; cbn [consumer.supervise consumer.Consume consumer.make_chan];
    try (now split);
    (destruct cancelled; cbn; [now split|];
     match goal with |- context [consumer.supervise rounds ?c1 ?h1] =>
       destruct (IH c1 h1) as [Hw Hc]; rewrite Hw, Hc end; now split).
Qed.







End Supervision.


(** The same member while the claim loop is still at work: [Stop] has
    not returned. *)
Example Stop_waits_while_the_claim_loop_runs :
  let c := consumer_sample.member (consumer_sample.failing_at 9) in
  let rounds :=
    [(consumer.session_of_claim
        [consumer.SelMessage (consumer_sample.record 5)]
        c (consumer_sample.session_at 5), true)] in
  let '(c1, h1, r1) := consumer.Start rounds 0 c consumer_sample.chans in
  r1 = consumer.Returned None
  /\ (consumer.Stop None c1 h1).2 = consumer.Blocked.
Proof. vm_compute. split; reflexivity. Qed.


(** A first join that succeeds: [Start] returns nil, and when that
    session is lost the loop logs the error and joins again without an
    error reaching the caller. *)
Example Start_returns_after_first_join :
  let rounds := [(consumer.SessionEnds (Some consumer_sample.join_error), false);
                 (consumer.SessionLasts, false)] in
  let '(c', h', r) :=
    consumer.Start rounds 0 (consumer_sample.member (consumer_sample.failing_at 5))
                   consumer_sample.chans in
  r = consumer.Returned None
  /\ h' = [true; true]
  /\ map message (consumer.logger c') = ["Consumer started"; "Consumer error"].
Proof. vm_compute. repeat split; reflexivity. Qed.

(** * Further properties of the code *)

(** ** The probes of a half-open breaker *)

Section Probes.
Context {T : Type}.
Implicit Types (cb : CircuitBreaker (@Wires T)) (w : @Wires T).

Lemma setState_probes cb st now w :
  producer_breaker cb -> probes_in_step (setState cb st now w).1 \/ (setState cb st now w).1 = cb.
Proof.
  intros Hb. unfold setState. case_decide; [now right|]. left.
  destruct Hb as (Hn & Hmax & Hi & Ht & Hr & Ho). rewrite Ho. cbn.
  split; [repeat split; assumption|]. intros _. cbn. lia.
Qed.

Lemma currentState_probes cb now w :
  probes_in_step cb -> probes_in_step (currentState cb now w).1.
Proof.
  intros [Hb Hh]. unfold currentState.
  destruct (state cb) eqn:Hs.
  - destruct (expiry cb) as [e|]; [destruct (Before e now)|]; cbn [fst];
      try (split; [exact Hb | cbn; rewrite ?Hs; discriminate]).
  - cbn [fst]. split; [exact Hb | intros _; exact (Hh eq_refl)].
  - assert (Hset : probes_in_step (setState cb StateHalfOpen now w).1).
    { destruct (setState_probes cb StateHalfOpen now w Hb) as [H|H]; [exact H|].
      rewrite H. split; [exact Hb | rewrite Hs; discriminate]. }
    destruct (expiry cb) as [e|]; [destruct (Before e now)|]; cbn [fst]; try exact Hset.
    split; [exact Hb | rewrite Hs; discriminate].
Qed.

(** The gate of a breaker whose probes are in step admits the request or
    reports the open circuit; it never reports too many requests. *)
Lemma beforeRequest_probes cb clk w :
  probes_in_step cb ->
  let '(cb1, _, _, r) := beforeRequest cb clk w in
  match r with
  | Ok g => probe_in_flight cb1 /\ g = generation cb1
  | Err cause => cause = ErrOpenState /\ probes_in_step cb1
  end.
Proof.
  intros Hp. unfold beforeRequest. cbn [Now].
  pose proof (currentState_probes cb (readings clk (ticks clk)) w Hp) as Hc.
  destruct (currentState cb _ w) as [cb1 w1]. cbn [fst] in Hc.
  case_decide as Hopen; [now split|].
  destruct Hc as [Hb Hh].
  destruct (bool_decide (state cb1 = StateHalfOpen)) eqn:Hhalf.
  - apply bool_decide_eq_true in Hhalf. destruct (Hh Hhalf) as [Heq Hlt].
    pose proof Hb as (Hn & Hmax & Hrest). rewrite Hmax.
    destruct (Z.leb_spec 3 (Requests (counts cb1))); [lia|]. cbn [andb].
    split; [|reflexivity]. split; [exact Hb|]. split; [exact Hopen|].
    intros _. cbn. rewrite uint32_small by lia. lia.
  - cbn [andb]. apply bool_decide_eq_false in Hhalf.
    split; [|reflexivity]. split; [exact Hb|]. split; [exact Hopen|].
    intros Hs. cbn in Hs. contradiction.
Qed.

Ltac other_state Hb Hs :=
  split; [exact Hb | intros Hx; cbn in Hx; rewrite ?Hs in Hx; discriminate].

Lemma onSuccess_probes cb now w :
  probe_in_flight cb -> probes_in_step (onSuccess cb (state cb) now w).1.
Proof.
  intros (Hb & Hno & Hh). unfold onSuccess. destruct (state cb) eqn:Hs.
  - cbn [fst]. other_state Hb Hs.
  - destruct (Hh eq_refl) as [Heq Hle].
    pose proof Hb as (Hn & Hmax & Hi & Ht & Hr & Ho).
    cbn [with_counts with_gen maxRequests counts Counts_onSuccess ConsecutiveSuccesses].
    rewrite Hmax, uint32_small by lia.
    destruct (Z.leb_spec 3 (ConsecutiveSuccesses (counts cb) + 1)).
    + unfold setState. cbn [state with_counts with_gen onStateChange]. rewrite Hs, Ho.
      case_decide; [discriminate|]. cbn [fst].
      split; [exact Hb|]. cbn. discriminate.
    + cbn [fst]. split; [exact Hb|].
      intros _. cbn. rewrite uint32_small by lia. lia.
  - cbn [fst]. other_state Hb Hs.
Qed.

Lemma onFailure_probes cb now w :
  probe_in_flight cb -> probes_in_step (onFailure cb (state cb) now w).1.
Proof.
  intros (Hb & Hno & Hh). unfold onFailure.
  pose proof Hb as (Hn & Hmax & Hi & Ht & Hr & Ho).
  destruct (state cb) eqn:Hs.
  - destruct (readyToTrip _ _).
    + unfold setState. cbn [state with_counts with_gen onStateChange]. rewrite Hs, Ho.
      case_decide; [discriminate|]. cbn [fst].
      split; [exact Hb|]. cbn. discriminate.
    + cbn [fst]. other_state Hb Hs.
  - unfold setState. rewrite Hs. case_decide; [discriminate|]. rewrite Ho. cbn [fst].
    split; [exact Hb|]. cbn. discriminate.
  - cbn [fst]. other_state Hb Hs.
Qed.

Lemma afterRequest_probes cb success clk w :
  probe_in_flight cb ->
  probes_in_step (afterRequest cb (generation cb) success clk w).1.1.
Proof.
  intros (Hb & Hno & Hh). unfold afterRequest. cbn [Now].
  assert (Hc : let cb2 := (currentState cb (readings clk (ticks clk)) w).1 in
               (probe_in_flight cb2 /\ (state cb = StateHalfOpen -> cb2 = cb))
               /\ state cb2 <> StateHalfOpen \/ cb2 = cb).
  { unfold currentState. destruct (state cb) eqn:Hs; [|now right|contradiction].
    destruct (expiry cb) as [e|]; [destruct (Before e _)|]; cbn [fst]; try (now right).
    left. split; [|cbn; rewrite Hs; discriminate].
    split; [|discriminate].
    split; [exact Hb|]. split; cbn; rewrite Hs; discriminate. }
  cbv zeta in Hc.
  destruct (currentState cb _ w) as [cb2 w2]. cbn [fst] in Hc.
  assert (Hf : probe_in_flight cb2).
  { destruct Hc as [[[Hf _] _]| ->]; [exact Hf | exact (conj Hb (conj Hno Hh))]. }
  case_decide as Hg.
  - destruct success.
    + pose proof (onSuccess_probes cb2 (readings clk (ticks clk)) w2 Hf) as Hr.
      destruct (onSuccess _ _ _ _). exact Hr.
    + pose proof (onFailure_probes cb2 (readings clk (ticks clk)) w2 Hf) as Hr.
      destruct (onFailure _ _ _ _). exact Hr.
  - cbn [fst]. destruct Hc as [[[_ _] Hnh]| ->]; [|contradiction].
    destruct Hf as (Hb2 & _ & _). split; [exact Hb2|]. intros Hx. contradiction.
Qed.

End Probes.

Section ProbesPublish.
Context {T : Type} `{!sarama.SyncProducer T}.
Implicit Types (p : Producer T) (clk : Clock).

Lemma Execute_probes {R} (cb : CircuitBreaker (@Wires T)) (req : Wires -> Wires * result R) clk w :
  probes_in_step cb -> probes_in_step (Execute cb req clk w).1.1.1.
Proof.
  intros Hp. unfold Execute.
  pose proof (beforeRequest_probes cb clk w Hp) as Hb.
  destruct (beforeRequest cb clk w) as [[[cb1 clk1] w1] [g|cause]].
  - destruct Hb as [Hf ->]. destruct (req w1) as [w2 r].
    pose proof (afterRequest_probes cb1 (succeeded r) clk1 w2 Hf) as Ha.
    unfold succeeded in Ha.
    destruct (afterRequest cb1 _ _ clk1 w2) as [[cb2 clk2] w3]. exact Ha.
  - destruct Hb as [_ Hb]. exact Hb.
Qed.

Lemma Publish_probes ctx topic event p clk :
  probes_in_step (cb p) -> probes_in_step (cb (Publish ctx topic event p clk).1.1).
Proof.
  intros Hp. unfold Publish.
  destruct (Tracer_Start ctx (tracer p)) as [[c tid] tr].
  destruct (json_Marshal event) as [payload|err]; [|exact Hp].
  match goal with |- context [Execute ?a ?b ?c ?d] =>
    pose proof (Execute_probes a b c d Hp) as He;
    destruct (Execute a b c d) as [[[cb1 clk1] w1] r] end.
  destruct r; exact He.
Qed.

Lemma feed_probes ctx topic events :
  forall p clk,
  probes_in_step (cb p) -> probes_in_step (cb (feed ctx topic events p clk).1.1).
Proof.
  induction events as [|event events IH]; intros p clk Hp; cbn [feed]; [exact Hp|].
  pose proof (Publish_probes ctx topic event p clk Hp) as H1.
  destruct (Publish ctx topic event p clk) as [[p1 clk1] r].
  specialize (IH p1 clk1 H1).
  destruct (feed ctx topic events p1 clk1) as [[p2 clk2] rs]. exact IH.
Qed.

Lemma NewProducer_probes defaults dial otel_Tracer cfg logger clk0 p clk1 :
  NewProducer defaults dial otel_Tracer cfg logger clk0 = (Ok p, clk1) ->
  probes_in_step (cb p).
Proof.
  unfold NewProducer.
  destruct (dial (Brokers cfg) (producerSaramaConfig defaults cfg)) as [t|err];
    [|discriminate].
  intros [= <- _]. cbn. split; [repeat split; reflexivity | discriminate].
Qed.

(** X1.  A producer made by [NewProducer] and used by one caller at a
    time (each publish returns before the next starts), whatever the
    events, the results of the sends and the readings of the clock: the
    breaker never refuses a request for too many requests.  When it
    refuses, the circuit is open. *)
Theorem sequential_publishes_never_hit_the_probe_limit
        defaults dial otel_Tracer cfg logger clk0 p clk1 ctx topic events clk clk' w :
  NewProducer defaults dial otel_Tracer cfg logger clk0 = (Ok p, clk1) ->
  match (beforeRequest (cb (feed ctx topic events p clk).1.1) clk' w).2 with
  | Ok _ => True
  | Err cause => cause = ErrOpenState
  end.
Proof.
  intros Hnew. apply NewProducer_probes in Hnew.
  pose proof (feed_probes ctx topic events p clk Hnew) as Hf.
  pose proof (beforeRequest_probes _ clk' w Hf) as Hb.
  destruct (beforeRequest _ clk' w) as [[[cb1 clk2] w1] [g|cause]]; cbn [snd].
  - exact I.
  - now destruct Hb as [-> _].
Qed.

End ProbesPublish.

(** Three failed sends on a new producer open the circuit; the next
    request is refused for that reason. *)
Lemma open_circuit_is_the_reason_after_three_failures :
  match (beforeRequest (cb (sample.after [0; 1; 2]%nat sample.steady 3).1.1)
                       sample.steady (sample.broker [], [])).2 with
  | Ok _ => True
  | Err cause => cause = ErrOpenState
  end.
Proof.
  exact (sequential_publishes_never_hit_the_probe_limit
           sample.defaults (sample.dial [0; 1; 2]%nat) (fun _ => sample.spans)
           sample.config [] sample.steady
           (sample.fresh [0; 1; 2]%nat sample.steady).1
           (sample.fresh [0; 1; 2]%nat sample.steady).2
           None "test-topic" (replicate 3 sample.event)
           (sample.fresh [0; 1; 2]%nat sample.steady).2
           sample.steady (sample.broker [], []) eq_refl).
Defined.

(** ** The counting window *)

Section Window.
Context {T : Type} `{!sarama.SyncProducer T}.
Implicit Types (p : Producer T) (clk : Clock) (cb : CircuitBreaker (@Wires T)).

(** A closed breaker whose window has run out when a request completes:
    the request is not counted in the old window. *)
Lemma afterRequest_expired cb g success clk w e :
  producer_breaker cb ->
  state cb = StateClosed -> expiry cb = Some e -> e < reading clk ->
  let cb' := (afterRequest cb g success clk w).1.1 in
  state cb' = StateClosed
  /\ Requests (counts cb') = 0
  /\ TotalFailures (counts cb') <= 1
  /\ expiry cb' = Some (reading clk + 10 * time.Second).
Proof.
  intros (Hn & Hmax & Hi & Ht & Hr & Ho) Hs He Hexp.
  unfold afterRequest, reading in *. cbn [Now fst] in *.
  unfold currentState. rewrite Hs, He. unfold Before.
  destruct (Z.ltb_spec e (readings clk (ticks clk))); [|lia].
  assert (H1 : let cb1 := toNewGeneration cb (readings clk (ticks clk)) in
               state cb1 = StateClosed /\ counts cb1 = Counts_clear
               /\ expiry cb1 = Some (readings clk (ticks clk) + 10 * time.Second)
               /\ readyToTrip cb1 = ReadyToTrip).
  { unfold toNewGeneration. cbn. rewrite Hs, Hi. cbn. auto. }
  cbv zeta in H1. destruct H1 as (Hs1 & Hc1 & He1 & Hr1).
  remember (toNewGeneration cb (readings clk (ticks clk))) as cb1 eqn:E. clear E.
  case_decide; [|cbn [fst]; rewrite Hc1; cbn; repeat split; assumption || lia].
  destruct success.
  - rewrite Hs1. cbn [onSuccess fst]. cbn. rewrite Hc1. cbn.
    split; [assumption|]. split; [reflexivity|]. split; [lia|assumption].
  - rewrite Hs1. unfold onFailure. cbn [with_counts with_gen readyToTrip counts].
    rewrite Hr1, Hc1.
    change (ReadyToTrip (Counts_onFailure Counts_clear)) with false. cbv iota.
    cbn. split; [assumption|]. split; [reflexivity|].
    split; [vm_compute; discriminate | assumption].
Qed.

(** X2.  A publish on a closed breaker whose counting window has run
    out starts a new window: whatever was counted before is dropped, the
    breaker is closed after the call even when the send fails, at most
    this one request is counted, and the new window lasts at least ten
    seconds from the start of the call. *)
Theorem expired_window_starts_afresh ctx topic event p clk e :
  producer_breaker (cb p) ->
  state (cb p) = StateClosed ->
  expiry (cb p) = Some e ->
  e < reading clk ->
  serializable event ->
  let '(p', clk', r) := Publish ctx topic event p clk in
  clk' = tick (tick clk)
  /\ state (cb p') = StateClosed
  /\ Requests (counts (cb p')) <= 1
  /\ TotalFailures (counts (cb p')) <= 1
  /\ exists e', expiry (cb p') = Some e' /\ reading clk + 10 * time.Second <= e'.
Proof.
  intros Hb Hs He Hexp [payload Hm].
  rewrite (Publish_gated _ _ _ _ _ payload Hm).
  destruct (Tracer_Start ctx (tracer p)) as [[c tid] tr].
  set (req := send topic (outbound topic event payload tid)).
  set (w := (producer.producer p, logger p)).
  pose proof Hb as (Hn & Hmax & Hi & Ht & Hr & Ho).
  assert (H0 : let cb0 := toNewGeneration (cb p) (reading clk) in
               producer_breaker cb0 /\ state cb0 = StateClosed
               /\ counts cb0 = Counts_clear
               /\ expiry cb0 = Some (reading clk + 10 * time.Second)).
  { unfold toNewGeneration. cbn. rewrite Hs, Hi. cbn. repeat split; assumption. }
  cbv zeta in H0. destruct H0 as (Hb0 & Hs0 & Hc0 & He0).
  assert (Hcur : currentState (cb p) (reading clk) w
                 = (toNewGeneration (cb p) (reading clk), w)).
  { unfold currentState, Before. rewrite Hs, He.
    destruct (Z.ltb_spec e (reading clk)); [reflexivity | lia]. }
  remember (toNewGeneration (cb p) (reading clk)) as cb0 eqn:E. clear E.
  rewrite (Execute_current _ _ _ _ cb0 w Hcur)
    by (eapply currentState_closed; eauto; unfold time.Second; lia).
  unfold Execute. rewrite beforeRequest_admits;
    [|eapply currentState_closed; eauto; unfold time.Second; lia | now left].
  destruct (req w) as [w1 r].
  set (cb1 := with_counts cb0 (Counts_onRequest (counts cb0))).
  assert (H1 : producer_breaker cb1 /\ state cb1 = StateClosed
               /\ expiry cb1 = Some (reading clk + 10 * time.Second)
               /\ counts cb1 = mkCounts 1 0 0 0 0 /\ generation cb1 = generation cb0).
  { subst cb1. cbn. rewrite Hc0. split; [exact Hb0|]. auto. }
  destruct H1 as (Hb1 & Hs1 & He1 & Hc1 & Hg1). clearbody cb1.
  rewrite <- Hg1.
  destruct (Z.le_gt_cases (reading (tick clk)) (reading clk + 10 * time.Second)) as [Hin|Hout].
  - rewrite afterRequest_counts by (eapply currentState_closed; eauto).
    rewrite Hs1.
    destruct r as [u|err].
    + cbn [onSuccess]. cbn. rewrite Hc1. cbn.
      split; [reflexivity|]. split; [assumption|].
      split; [done|]. split; [done|].
      eexists. split; [eassumption | unfold reading; cbn [Now fst]; lia].
    + unfold onFailure. cbn [with_counts with_gen readyToTrip counts].
      destruct Hb1 as (_ & _ & _ & _ & Hr1 & _). rewrite Hr1, Hc1.
      change (ReadyToTrip (Counts_onFailure (mkCounts 1 0 0 0 0))) with false. cbv iota.
      cbn. split; [reflexivity|]. split; [assumption|].
      split; [done|]. split; [vm_compute; discriminate|].
      eexists. split; [eassumption | unfold reading; cbn [Now fst]; lia].
  - pose proof (afterRequest_expired cb1 (generation cb1)
                  (match r with Ok _ => true | Err _ => false end) (tick clk) w1 _
                  Hb1 Hs1 He1 ltac:(lia)) as Ha.
    cbv zeta in Ha.
    destruct (afterRequest cb1 _ _ (tick clk) w1) as [[cb2 clk2] w2] eqn:Haft.
    assert (Hclk : clk2 = tick (tick clk)).
    { destruct (afterRequest_wire cb1 (generation cb1)
                  (match r with Ok _ => true | Err _ => false end) (tick clk) w1 Hb1)
        as (_ & _ & Hc2).
      rewrite Haft in Hc2. exact Hc2. }
    cbn [fst] in Ha. destruct Ha as (Hs2 & Hq2 & Hf2 & He2).
    destruct r; cbn; (split; [assumption|]); (split; [assumption|]);
      (split; [lia|]); (split; [assumption|]);
      (eexists; split; [eassumption | unfold reading, time.Second in *; cbn [Now tick fst snd readings ticks] in *; lia]).
Qed.
End Window.

(** A producer made at time 0 and first used a minute later. *)
Lemma publish_a_minute_later_starts_a_window :
  let '(p', clk', r) :=
    Publish None "test-topic" sample.event
            (sample.fresh [0]%nat sample.steady).1 (sample.jumping 0) in
  clk' = tick (tick (sample.jumping 0))
  /\ state (cb p') = StateClosed
  /\ Requests (counts (cb p')) <= 1
  /\ TotalFailures (counts (cb p')) <= 1
  /\ exists e', expiry (cb p') = Some e'
                /\ reading (sample.jumping 0) + 10 * time.Second <= e'.
Proof.
  apply (expired_window_starts_afresh None "test-topic" sample.event
           (sample.fresh [0]%nat sample.steady).1 (sample.jumping 0) (10 * time.Second)).
  - repeat split; reflexivity.
  - reflexivity.
  - reflexivity.
  - reflexivity.
  - now exists "{}".
Defined.

(** ** The trace of a batch *)

Section Traces.
Implicit Types (p : Producer sarama.Broker) (clk : Clock) (event : Event).

Lemma Publish_traced tid topic event p clk :
  producer_breaker (cb p) ->
  let '(p', _, r) := Publish (Some tid) topic event p clk in
  producer_breaker (cb p')
  /\ exists msgs,
      sarama.delivered (producer.producer p')
      = sarama.delivered (producer.producer p) ++ msgs
      /\ Forall (traced tid) msgs
      /\ (length msgs <= 1)%nat
      /\ (sarama.calls (producer.producer p')
          <= S (sarama.calls (producer.producer p)))%nat
      /\ (sarama.calls (producer.producer p) <= sarama.calls (producer.producer p'))%nat.
Proof.
  intros Hb. destruct (json_Marshal event) as [payload|err] eqn:Hm.
  - pose proof (Publish_cases (Some tid) topic event p clk payload Hb Hm) as Hc.
    cbv zeta in Hc. cbn [Tracer_Start fst snd] in Hc.
    destruct (Publish (Some tid) topic event p clk) as [[p' clk'] r].
    destruct Hc as [Hb' Hc]. split; [exact Hb'|].
    destruct (beforeRequest _ _ _) as [[[cb1 clk1] w1] [g|cause]].
    + destruct Hc as (Hprod & _ & Hsent). rewrite Hprod.
      cbn [sarama.SendMessage sarama.Broker_SyncProducer] in *.
      unfold sarama.Broker_SendMessage in *.
      destruct (sarama.outcome _ _) as [po|cause]; cbn [fst snd sarama.delivered sarama.calls].
      * eexists [_]. split; [reflexivity|]. split; [repeat constructor|]. cbn. lia.
      * exists []. rewrite app_nil_r. split; [reflexivity|]. split; [constructor|]. cbn. lia.
    + destruct Hc as (_ & _ & -> & _). exists []. rewrite app_nil_r.
      split; [reflexivity|]. split; [constructor|]. cbn. lia.
  - unfold Publish. cbn [Tracer_Start]. rewrite Hm. cbn [producer.cb producer.producer].
    split; [exact Hb|]. exists []. rewrite app_nil_r.
    split; [reflexivity|]. split; [constructor|]. cbn. lia.
Qed.

Lemma PublishBatch_range_traced tid topic events :
  forall p clk,
  producer_breaker (cb p) ->
  let '(p', _, _) := PublishBatch_range (Some tid) topic events p clk in
  exists msgs,
    sarama.delivered (producer.producer p')
    = sarama.delivered (producer.producer p) ++ msgs
    /\ Forall (traced tid) msgs
    /\ (length msgs <= length events)%nat
    /\ (sarama.calls (producer.producer p')
        <= sarama.calls (producer.producer p) + length events)%nat.
Proof.
  induction events as [|event events IH]; intros p clk Hb; cbn [PublishBatch_range].
  - exists []. rewrite app_nil_r. split; [reflexivity|]. split; [constructor|]. cbn. lia.
  - pose proof (Publish_traced tid topic event p clk Hb) as Hd.
    destruct (Publish (Some tid) topic event p clk) as [[p1 clk1] r].
    destruct Hd as (Hb1 & m1 & Hd1 & Ht1 & Hl1 & Hc1 & _).
    destruct r as [err|].
    + exists m1. split; [exact Hd1|]. split; [exact Ht1|]. cbn [length]. lia.
    + specialize (IH p1 clk1 Hb1).
      destruct (PublishBatch_range (Some tid) topic events p1 clk1) as [[p' clk'] r].
      destruct IH as (m2 & Hd2 & Ht2 & Hl2 & Hc2).
      exists (m1 ++ m2). rewrite Hd2, Hd1, <- app_assoc.
      split; [reflexivity|]. split; [now apply Forall_app|].
      rewrite length_app. cbn [length]. lia.
Qed.

(** X3.  The records a batch hands to the transport all carry the trace
    id of the batch's own span (the caller's, when the context has one),
    with the JSON content type; the batch sends at most one record per
    event and leaves the records delivered before it in place. *)
Theorem batch_records_share_the_batch_trace ctx topic events p clk :
  producer_breaker (cb p) ->
  let tid := (Tracer_Start ctx (tracer p)).1.2 in
  let '(p', _, _) := PublishBatch ctx topic events p clk in
  (forall parent, ctx = Some parent -> tid = parent)
  /\ exists msgs,
      sarama.delivered (producer.producer p')
      = sarama.delivered (producer.producer p) ++ msgs
      /\ Forall (traced tid) msgs
      /\ (length msgs <= length events)%nat
      /\ (sarama.calls (producer.producer p')
          <= sarama.calls (producer.producer p) + length events)%nat.
Proof.
  intros Hb tid. subst tid. unfold PublishBatch.
  destruct ctx as [parent|]; cbn [Tracer_Start fst snd].
  - pose proof (PublishBatch_range_traced parent topic events
                  (mkProducer (producer.producer p) (cb p) (logger p)
                     (mkTracer (newTraceID (tracer p)) (S (started (tracer p))))) clk Hb) as Hr.
    destruct (PublishBatch_range _ _ _ _ _) as [[p' clk'] r].
    split; [now intros ? [= ->]|]. exact Hr.
  - pose proof (PublishBatch_range_traced (newTraceID (tracer p) (started (tracer p)))
                  topic events
                  (mkProducer (producer.producer p) (cb p) (logger p)
                     (mkTracer (newTraceID (tracer p)) (S (started (tracer p))))) clk Hb) as Hr.
    destruct (PublishBatch_range _ _ _ _ _) as [[p' clk'] r].
    split; [discriminate|]. exact Hr.
Qed.
End Traces.

Lemma batch_of_three_shares_one_trace :
  let tid := "00000000000000000000000000000000" in
  let '(p', _, _) :=
    PublishBatch None "test-topic" (replicate 3 sample.event)
                 (sample.fresh [1]%nat sample.steady).1
                 (sample.fresh [1]%nat sample.steady).2 in
  (forall parent, @None string = Some parent -> tid = parent)
  /\ exists msgs,
      sarama.delivered (producer.producer p') = [] ++ msgs
      /\ Forall (traced tid) msgs
      /\ (length msgs <= 3)%nat
      /\ (sarama.calls (producer.producer p') <= 0 + 3)%nat.
Proof.
  apply (batch_records_share_the_batch_trace None "test-topic" (replicate 3 sample.event)
           (sample.fresh [1]%nat sample.steady).1 (sample.fresh [1]%nat sample.steady).2).
  repeat split; reflexivity.
Defined.

(** ** The claim loop and the marks *)

Section Marks.
Context {H : Type}.
Implicit Types (c : consumer.Consumer H) (session : sarama.ConsumerGroupSession)
         (message : sarama.ConsumerMessage) (sel : list consumer.selected).

Lemma MarkMessage_lookup message session k :
  sarama.marked (sarama.MarkMessage message session) !! k
  = if decide (k = (sarama.Topic message, sarama.Partition message)) then
      (fun cur => Z.max cur (sarama.int64 (sarama.Offset message + 1)))
        <$> sarama.marked session !! k
    else sarama.marked session !! k.
Proof.
  unfold sarama.MarkMessage, sarama.MarkOffset.
  destruct (sarama.marked session !! (sarama.Topic message, sarama.Partition message))
    as [cur|] eqn:Hcur.
  - destruct (Z.ltb_spec cur (sarama.int64 (sarama.Offset message + 1))); cbn [sarama.marked].
    + case_decide as Hk.
      * subst k. rewrite lookup_insert_eq, Hcur. cbn. f_equal. lia.
      * rewrite lookup_insert_ne by congruence. reflexivity.
    + case_decide as Hk; [|reflexivity].
      subst k. rewrite Hcur. cbn. f_equal. lia.
  - case_decide as Hk; [|reflexivity]. subst k. rewrite Hcur. reflexivity.
Qed.

(** X4.  Whatever the handler does, a run of the claim loop never moves
    a partition's mark back, and never marks a partition the session has
    not claimed. *)
Theorem ConsumeClaim_marks_only_advance sel :
  forall c session k,
  match sarama.marked session !! k with
  | Some cur =>
      exists mark,
        sarama.marked (consumer.ConsumeClaim sel c session).1.2 !! k = Some mark
        /\ cur <= mark
  | None => sarama.marked (consumer.ConsumeClaim sel c session).1.2 !! k = None
  end.
Proof.
  induction sel as [|[message| |] sel IH]; intros c session k;
    cbn [consumer.ConsumeClaim fst snd];
    [destruct (sarama.marked session !! k); eauto using Z.le_refl | |
     destruct (sarama.marked session !! k); eauto using Z.le_refl |
     destruct (sarama.marked session !! k); eauto using Z.le_refl].
  destruct (Tracer_Start None (consumer.tracer c)) as [[ctx tid] tr].
  destruct (consumer.handler c ctx message (consumer.handler_state c)) as [h [err|]].
  - apply IH.
  - match goal with |- context [consumer.ConsumeClaim sel ?c1 ?s1] =>
      specialize (IH c1 s1 k) end.
    rewrite MarkMessage_lookup in IH.
    destruct (sarama.marked session !! k) as [cur|] eqn:Hk.
    + case_decide; cbn in IH.
      * destruct IH as (mark & Hm & Hle). exists mark. split; [exact Hm | lia].
      * exact IH.
    + case_decide; cbn in IH; exact IH.
Qed.

(** X5.  With a handler that succeeds on every record, a run of the
    claim loop over the records of one claimed partition leaves the
    partition marked one past the highest offset received (or where it was,
    if that is further), and logs nothing.  The offsets are those Kafka
    gives: not negative, and below the last [int64], where the sum
    [Offset + 1] would wrap around. *)
Theorem ConsumeClaim_marks_every_success sel :
  forall c session topic partition cur,
  (forall ctx message h, (consumer.handler c ctx message h).2 = None) ->
  Forall (fun message => sarama.Topic message = topic
                         /\ sarama.Partition message = partition
                         /\ 0 <= sarama.Offset message < 2 ^ 63 - 1) (received sel) ->
  sarama.marked session !! (topic, partition) = Some cur ->
  let '(c', session', _) := consumer.ConsumeClaim sel c session in
  sarama.marked session' !! (topic, partition) = Some (mark_after cur (received sel))
  /\ consumer.logger c' = consumer.logger c.
Proof.
  induction sel as [|[message| |] sel IH]; intros c session topic partition cur Hok Hall Hcur;
    cbn [consumer.ConsumeClaim received]; try (split; [exact Hcur | reflexivity]).
  destruct (Tracer_Start None (consumer.tracer c)) as [[ctx tid] tr].
  pose proof (Hok ctx message (consumer.handler_state c)) as Hnone.
  destruct (consumer.handler c ctx message (consumer.handler_state c)) as [h r].
  cbn [snd] in Hnone. subst r.
  cbn [received] in Hall. inversion Hall as [|? ? (Ht & Hp & Hrange) Hall']; subst.
  match goal with |- context [consumer.ConsumeClaim sel ?c1 ?s1] =>
    specialize (IH c1 s1 (sarama.Topic message) (sarama.Partition message)
                  (Z.max cur (sarama.Offset message + 1))) end.
  cbn [consumer.handler consumer.with_handled] in IH.
  specialize (IH Hok Hall').
  rewrite MarkMessage_lookup in IH. rewrite decide_True in IH by reflexivity.
  rewrite Hcur, int64_small in IH by lia. specialize (IH eq_refl).
  destruct (consumer.ConsumeClaim sel _ _) as [[c' session'] r].
  exact IH.
Qed.

(** X6.  With a handler that fails on every record, a run of the claim
    loop leaves the session as it found it, and logs one failure per
    record received, in order, each with the record's topic, partition
    and offset. *)
Theorem ConsumeClaim_failing_handler_commits_nothing sel :
  forall c session,
  (forall ctx message h, (consumer.handler c ctx message h).2 <> None) ->
  let '(c', session', _) := consumer.ConsumeClaim sel c session in
  session' = session
  /\ exists entries,
      consumer.logger c' = consumer.logger c ++ entries
      /\ Forall2 (fun message entry =>
                    exists err, entry = consumer.failed_entry message err)
                 (received sel) entries.
Proof.
  induction sel as [|[message| |] sel IH]; intros c session Hfail;
    cbn [consumer.ConsumeClaim received];
    [split; [reflexivity|]; exists []; rewrite app_nil_r; split; [reflexivity | constructor] | |
     split; [reflexivity|]; exists []; rewrite app_nil_r; split; [reflexivity | constructor] |
     split; [reflexivity|]; exists []; rewrite app_nil_r; split; [reflexivity | constructor]].
  destruct (Tracer_Start None (consumer.tracer c)) as [[ctx tid] tr].
  pose proof (Hfail ctx message (consumer.handler_state c)) as Herr.
  destruct (consumer.handler c ctx message (consumer.handler_state c)) as [h [err|]];
    [|contradiction].
  match goal with |- context [consumer.ConsumeClaim sel ?c1 ?s1] =>
    specialize (IH c1 s1 Hfail); destruct (consumer.ConsumeClaim sel c1 s1) as [[c' session'] r] end.
  destruct IH as (-> & entries & Hlog & Hall). split; [reflexivity|].
  exists (consumer.failed_entry message err :: entries).
  split; [rewrite Hlog; cbn; rewrite <- app_assoc; reflexivity|].
  constructor; [eauto | exact Hall].
Qed.
End Marks.

Section StartFacts.
Context {H : Type}.
Implicit Types (c : consumer.Consumer H) (h : consumer.Chans)
         (rounds : list (consumer.consumed * bool)).

(** A channel that is not the loop's current one keeps its state. *)
Lemma supervise_leaves_other_channels rounds :
  forall c h ch,
  (ch < length h)%nat -> ch <> consumer.ready c ->
  consumer.is_closed ch (consumer.supervise rounds c h).1.2 = consumer.is_closed ch h.
Proof.
  induction rounds as [|[call cancelled] rounds IH]; intros c h ch Hlt Hne;
    cbn [consumer.supervise]; [reflexivity|].
  destruct call as [err|ret|]; cbn [consumer.Consume consumer.Setup consumer.make_chan fst].
  - destruct cancelled; cbn [fst snd]; [reflexivity|].
    rewrite IH; cbn [consumer.ready]; rewrite ?length_app; cbn; try lia.
    now apply is_closed_make.
  - destruct cancelled; cbn [fst snd]; [now apply is_closed_close_other|].
    rewrite IH; cbn [consumer.ready]; rewrite ?length_app, ?length_close; cbn; try lia.
    rewrite is_closed_make by (rewrite length_close; lia).
    now apply is_closed_close_other.
  - cbn [fst snd]. now apply is_closed_close_other.
Qed.

(** X7.  [Start], when it reads the readiness channel before the
    goroutine has replaced it: it returns nil exactly when the first
    [Consume] call reaches [Setup], and is still waiting whenever that call
    fails to join, however many later calls succeed. *)
Theorem Start_returns_iff_first_call_sets_up rounds c h :
  (consumer.ready c < length h)%nat ->
  consumer.is_closed (consumer.ready c) h = false ->
  (consumer.Start rounds 0 c h).2
  = (if first_call_sets_up rounds then consumer.Returned None else consumer.Blocked).
Proof.
  intros Hlt Hopen. unfold consumer.Start. cbn [take consumer.supervise fst consumer.ready].
  set (c0 := consumer.mkConsumer _ _ _ _ _ _ _ _).
  assert (Hclosed : consumer.is_closed (consumer.ready c) (consumer.supervise rounds c0 h).1.2
                    = first_call_sets_up rounds).
  { destruct rounds as [|[call cancelled] rounds]; [exact Hopen|].
    cbn [consumer.supervise].
    destruct call as [err|ret|];
      cbn [consumer.Consume consumer.Setup consumer.make_chan fst first_call_sets_up].
    - destruct cancelled; cbn [fst snd]; [exact Hopen|].
      rewrite supervise_leaves_other_channels.
      + now rewrite is_closed_make.
      + rewrite length_app. cbn. lia.
      + cbn [consumer.ready]. lia.
    - destruct cancelled; cbn [fst snd]; [now apply is_closed_close|].
      rewrite supervise_leaves_other_channels.
      + rewrite is_closed_make by (rewrite length_close; lia).
        now apply is_closed_close.
      + rewrite length_app, length_close. cbn. lia.
      + cbn [consumer.ready]. rewrite length_close. lia.
    - cbn [fst snd]. now apply is_closed_close. }
  destruct (consumer.supervise rounds c0 h) as [[c1 h1] r1]. cbn [fst snd] in Hclosed.
  change (take 0 rounds) with (@nil (consumer.consumed * bool)).
  cbn [consumer.supervise fst]. subst c0. cbn [consumer.ready].
  rewrite Hclosed. destruct (first_call_sets_up rounds); reflexivity.
Qed.

(** X8.  [Start] sets the cancel function and adds one to the wait
    group; the goroutine gives it back exactly when the loop has returned,
    which is after a [Consume] call that ends with the context
    cancelled. *)
Theorem Start_holds_the_wait_group_while_the_loop_runs rounds k c h :
  let '(c', _, _) := consumer.Start rounds k c h in
  consumer.cancel c' = true
  /\ consumer.wg c'
     = (if existsb snd (completed rounds) then consumer.wg c else consumer.wg c + 1).
Proof.
  unfold consumer.Start.
  match goal with |- context [consumer.supervise rounds ?c0 h] =>
    destruct (supervise_wg rounds c0 h) as (Hw & Hc);
    destruct (consumer.supervise rounds c0 h) as [[c1 h1] r1] end.
  cbn [fst snd consumer.wg consumer.cancel] in Hw, Hc.
  destruct (consumer.is_closed _ h1); cbn [consumer.cancel consumer.wg];
    (split; [exact Hc|]); rewrite Hw; destruct (existsb _ _); lia.
Qed.
End StartFacts.

(** Two records on a claimed partition marked at 5. *)
Lemma two_successes_mark_past_the_second :
  let '(c', session', _) :=
    consumer.ConsumeClaim
      [consumer.SelMessage (consumer_sample.record 5);
       consumer.SelMessage (consumer_sample.record 6); consumer.SelClosed]
      (consumer_sample.member accepting) (consumer_sample.session_at 5) in
  sarama.marked session' !! (consumer_sample.topic, 0) = Some 7
  /\ consumer.logger c' = [].
Proof.
  apply (ConsumeClaim_marks_every_success
           [consumer.SelMessage (consumer_sample.record 5);
            consumer.SelMessage (consumer_sample.record 6); consumer.SelClosed]
           (consumer_sample.member accepting) (consumer_sample.session_at 5)
           consumer_sample.topic 0 5).
  - reflexivity.
  - repeat (apply List.Forall_cons; [repeat split; cbn; lia|]). apply List.Forall_nil.
  - apply lookup_singleton_eq.
Defined.

Lemma two_failures_commit_nothing :
  let '(c', session', _) :=
    consumer.ConsumeClaim
      [consumer.SelMessage (consumer_sample.record 5);
       consumer.SelMessage (consumer_sample.record 6); consumer.SelClosed]
      (consumer_sample.member refusing) (consumer_sample.session_at 5) in
  session' = consumer_sample.session_at 5
  /\ exists entries,
      consumer.logger c' = [] ++ entries
      /\ Forall2 (fun message entry =>
                    exists err, entry = consumer.failed_entry message err)
                 [consumer_sample.record 5; consumer_sample.record 6] entries.
Proof.
  apply (ConsumeClaim_failing_handler_commits_nothing
           [consumer.SelMessage (consumer_sample.record 5);
            consumer.SelMessage (consumer_sample.record 6); consumer.SelClosed]
           (consumer_sample.member refusing) (consumer_sample.session_at 5)).
  discriminate.
Defined.

(** The first join fails, the second succeeds and its session lasts:
    [Start] is still waiting. *)
Lemma Start_waits_after_a_failed_first_join :
  (consumer.Start [(consumer.JoinFails consumer_sample.join_error, false);
                   (consumer.SessionLasts, false)] 0
                  (consumer_sample.member accepting) consumer_sample.chans).2
  = consumer.Blocked.
Proof.
  apply (Start_returns_iff_first_call_sets_up
           [(consumer.JoinFails consumer_sample.join_error, false);
            (consumer.SessionLasts, false)]
           (consumer_sample.member accepting) consumer_sample.chans).
  - cbn. lia.
  - reflexivity.
Defined.



(** ** Topics *)

(** X9.  [Topic] answers with one of the thirteen topic names of the
    configuration.  Only the twenty-one event types with a case of their
    own get another topic than the audit log: every other value goes to
    the audit log, among them seven of the declared event types
    (TransactionAnalyzing, TransactionFailed, TransactionCancelled,
    TransactionWaitingReview, UserPasswordChanged, MFAEnabled,
    TokenRevoked). *)
Theorem Topic_falls_back_to_the_audit_log e cfg :
  In (events.Topic e cfg) (topic_names cfg)
  /\ (~ In e routed -> events.Topic e cfg = events.AuditLog cfg)
  /\ Forall (fun e' => events.Topic e' cfg = events.AuditLog cfg) unrouted.
Proof.
  split; [|split].
  - unfold events.Topic, topic_names.
    repeat (match goal with |- context [if ?b then _ else _] => destruct b end;
            [cbn; tauto|]).
    cbn; tauto.
  - intros Hnot.
    assert (E : existsb (String.eqb e) routed = false).
    { destruct (existsb (String.eqb e) routed) eqn:E; [|reflexivity].
      apply existsb_exists in E as (x & Hin & Heq).
      apply String.eqb_eq in Heq. now subst x. }
    unfold routed in E. cbn [existsb] in E.
    repeat match type of E with
           | (_ || _)%bool = false => apply orb_false_elim in E as [? E]
           end.
    unfold events.Topic, events.case. cbn [existsb].
    repeat match goal with
           | Hf : String.eqb e ?x = false |- _ => rewrite Hf; clear Hf
           end.
    cbn [orb]. now destruct (String.eqb e events.EventTypeAuditLogCreated).
  - unfold unrouted. repeat constructor.
Qed.

(** ** Transfer amounts *)

Lemma pow10_pos n : 0 < 10 ^ n \/ (n < 0 /\ 10 ^ n = 0).
Proof.
  destruct (Z.lt_ge_cases n 0) as [Hn|Hn].
  - right. split; [exact Hn|]. now apply Z.pow_neg_r.
  - left. now apply Z.pow_pos_nonneg.
Qed.

(** X10.  [ValidateTransferAmount] accepts exactly the decimals with an
    exponent of at least -2 whose value is a whole number of cents from 1
    to 100,000,000 (one million units).  A decimal written with three
    places is refused even when its value is a whole number of cents. *)
Theorem accepted_amounts_are_whole_cents amount :
  validators.ValidateTransferAmount amount = None
  <-> -2 <= decimal.exp amount
      /\ 1 <= decimal.value amount * 10 ^ (decimal.exp amount + 2) <= 100000000.
Proof.
  destruct amount as [v e].
  unfold validators.ValidateTransferAmount, decimal.LessThanOrEqual, decimal.GreaterThan,
    decimal.Cmp, decimal.RescalePair, decimal.rescale, decimal.Exponent,
    validators.MaxTransferAmount, decimal.NewFromInt, decimal.Zero.
  cbn [decimal.exp decimal.value].
  destruct (Z.ltb_spec e (-2)) as [Hlow|Hlow].
  { split; [|lia]. intros Hnone. exfalso.
    repeat match type of Hnone with
           | (if ?b then _ else _) = None => destruct b; [discriminate|]
           | (match ?c with _ => _ end) = None => destruct c
           end; discriminate. }
  assert (Hcases : e = -2 \/ e = -1 \/ e = 0 \/ e = 1 \/ 2 <= e) by lia.
  destruct Hcases as [->|[->|[->|[->|Hbig]]]].
  1-4: cbn; repeat match goal with
                   | |- context [?x ?= ?y] => destruct (Z.compare_spec x y)
                   end; split; intros; try discriminate; try reflexivity; lia.
  replace (e =? 1) with false by (symmetry; apply Z.eqb_neq; lia).
  replace (e <? 1) with false by (symmetry; apply Z.ltb_ge; lia).
  replace (1 <? e) with true by (symmetry; apply Z.ltb_lt; lia).
  replace (e =? 0) with false by (symmetry; apply Z.eqb_neq; lia).
  replace (e <? 0) with false by (symmetry; apply Z.ltb_ge; lia).
  replace (0 <? e) with true by (symmetry; apply Z.ltb_lt; lia).
  replace (1 =? 1) with true by reflexivity.
  replace (0 =? 0) with true by reflexivity.
  cbn [decimal.exp decimal.value].
  replace (e - 0) with (e - 1 + 1) by lia.
  replace (e + 2) with (e - 1 + 3) by lia.
  rewrite !Z.pow_add_r by lia.
  assert (Hp : 0 < 10 ^ (e - 1)) by (apply Z.pow_pos_nonneg; lia).
  change (10 ^ 1) with 10. change (10 ^ 3) with 1000.
  remember (10 ^ (e - 1)) as p eqn:Ep. clear Ep.
  destruct (Z.compare_spec (v * p) 0); destruct (Z.compare_spec (v * (p * 10)) 1000000);
    split; intros; try discriminate; try reflexivity; nia.
Qed.

(** ** Routing numbers *)

Lemma byte_inj c c' : validators.byte c = validators.byte c' -> c = c'.
Proof.
  unfold validators.byte. intros Heq. apply N2Z.inj in Heq.
  rewrite <- (Ascii.ascii_N_embedding c), <- (Ascii.ascii_N_embedding c'). now rewrite Heq.
Qed.

Lemma is_digit_spec c :
  validators.is_digit c = true <-> 48 <= validators.byte c <= 57.
Proof. unfold validators.is_digit. rewrite andb_true_iff, !Z.leb_le. tauto. Qed.

Lemma routingNumberRegex_nine s :
  validators.routingNumberRegex s = true
  <-> exists c0 c1 c2 c3 c4 c5 c6 c7 c8,
        s = nine c0 c1 c2 c3 c4 c5 c6 c7 c8
        /\ Forall (fun c => 48 <= validators.byte c <= 57) [c0; c1; c2; c3; c4; c5; c6; c7; c8].
Proof.
  unfold validators.routingNumberRegex, validators.len. rewrite andb_true_iff, Z.eqb_eq. split.
  - intros [Hlen Hdigits].
    do 9 (destruct s as [|? s]; [cbn in Hlen; lia|]).
    destruct s; [|cbn in Hlen; lia].
    do 9 eexists. split; [reflexivity|].
    cbn in Hdigits. rewrite !andb_true_iff in Hdigits.
    repeat constructor; apply is_digit_spec; tauto.
  - intros (c0 & c1 & c2 & c3 & c4 & c5 & c6 & c7 & c8 & -> & Hd).
    split; [reflexivity|]. cbn.
    repeat match goal with
           | Hf : Forall _ (_ :: _) |- _ => inversion_clear Hf
           end.
    rewrite !andb_true_iff.
    repeat split; try reflexivity; now apply is_digit_spec.
Qed.

Lemma ValidateRoutingNumber_nine c0 c1 c2 c3 c4 c5 c6 c7 c8 :
  Forall (fun c => 48 <= validators.byte c <= 57) [c0; c1; c2; c3; c4; c5; c6; c7; c8] ->
  validators.ValidateRoutingNumber (nine c0 c1 c2 c3 c4 c5 c6 c7 c8)
  = if Z.rem (checksum c0 c1 c2 c3 c4 c5 c6 c7 c8) 10 =? 0 then None
    else Some (validators.mkValidationError "routing_number" "Invalid routing number checksum").
Proof.
  intros Hd. unfold validators.ValidateRoutingNumber.
  replace (validators.routingNumberRegex _) with true
    by (symmetry; apply routingNumberRegex_nine; do 9 eexists; split; [reflexivity|exact Hd]).
  cbn [negb]. unfold nine, validators.bytes. cbn [String.list_ascii_of_string map nth].
  fold (checksum c0 c1 c2 c3 c4 c5 c6 c7 c8).
  now destruct (Z.rem _ 10 =? 0).
Qed.

Ltac digit_bounds :=
  repeat match goal with
         | Hf : Forall _ (_ :: _) |- _ => inversion_clear Hf
         | Hf : Forall _ [] |- _ => clear Hf
         end.

Ltac agree Hj j :=
  let Hx := fresh "Hx" in
  assert (Hx := Hj j); cbn in Hx;
  try (specialize (Hx ltac:(lia)); injection Hx as ->).

(** X11.  The checksum catches every single wrong byte: a string that
    differs from an accepted routing number in one position only (a byte
    replaced, or one added or dropped at the end) is refused, for its
    checksum if it is nine digits, for its form otherwise. *)
Theorem one_wrong_digit_is_rejected s s' i :
  valid_routing_number s ->
  (forall j, j <> i -> String.get j s' = String.get j s) ->
  s' <> s ->
  validators.ValidateRoutingNumber s'
  = Some (validators.mkValidationError "routing_number"
            (if validators.routingNumberRegex s' then "Invalid routing number checksum"
             else "Routing number must be exactly 9 digits")).
Proof.
  intros Hs Hj Hne.
  unfold valid_routing_number in Hs.
  destruct (validators.routingNumberRegex s) eqn:Hr;
    [|unfold validators.ValidateRoutingNumber in Hs; now rewrite Hr in Hs].
  apply routingNumberRegex_nine in Hr
    as (c0 & c1 & c2 & c3 & c4 & c5 & c6 & c7 & c8 & -> & Hd).
  rewrite ValidateRoutingNumber_nine in Hs by exact Hd.
  destruct (Z.eqb_spec (Z.rem (checksum c0 c1 c2 c3 c4 c5 c6 c7 c8) 10) 0) as [Hsum|];
    [clear Hs|discriminate].
  destruct (validators.routingNumberRegex s') eqn:Hr';
    [|unfold validators.ValidateRoutingNumber; now rewrite Hr'].
  apply routingNumberRegex_nine in Hr'
    as (d0 & d1 & d2 & d3 & d4 & d5 & d6 & d7 & d8 & -> & Hd').
  rewrite ValidateRoutingNumber_nine by exact Hd'.
  destruct (Z.eqb_spec (Z.rem (checksum d0 d1 d2 d3 d4 d5 d6 d7 d8) 10) 0) as [Hsum'|];
    [exfalso|reflexivity].
  apply Hne. unfold nine in Hj.
  do 9 (destruct i as [|i];
        [ agree Hj 0%nat; agree Hj 1%nat; agree Hj 2%nat; agree Hj 3%nat; agree Hj 4%nat;
          agree Hj 5%nat; agree Hj 6%nat; agree Hj 7%nat; agree Hj 8%nat;
          digit_bounds; unfold checksum in Hsum, Hsum';
          match goal with
          | |- nine ?a0 ?a1 ?a2 ?a3 ?a4 ?a5 ?a6 ?a7 ?a8 = nine ?b0 ?b1 ?b2 ?b3 ?b4 ?b5 ?b6 ?b7 ?b8 =>
              assert (validators.byte a0 = validators.byte b0
                      /\ validators.byte a1 = validators.byte b1
                      /\ validators.byte a2 = validators.byte b2
                      /\ validators.byte a3 = validators.byte b3
                      /\ validators.byte a4 = validators.byte b4
                      /\ validators.byte a5 = validators.byte b5
                      /\ validators.byte a6 = validators.byte b6
                      /\ validators.byte a7 = validators.byte b7
                      /\ validators.byte a8 = validators.byte b8)
                as (E0 & E1 & E2 & E3 & E4 & E5 & E6 & E7 & E8)
                by (Z.quot_rem_to_equations; lia);
              apply byte_inj in E0, E1, E2, E3, E4, E5, E6, E7, E8; congruence
          end
        | ]).
  agree Hj 0%nat; agree Hj 1%nat; agree Hj 2%nat; agree Hj 3%nat; agree Hj 4%nat;
    agree Hj 5%nat; agree Hj 6%nat; agree Hj 7%nat; agree Hj 8%nat.
  reflexivity.
Qed.

Ltac position Hj j :=
  let Hx := fresh "Hx" in
  assert (Hx := Hj j); cbn in Hx;
  first [ specialize (Hx ltac:(lia) ltac:(lia)) | clear Hx ].

(** X12.  Swapping two neighbouring digits of an accepted routing
    number gives an accepted number exactly when the two digits are equal
    or differ by five: those swaps the checksum does not catch. *)
Theorem adjacent_transposition_passes_iff_digits_differ_by_five s s' i a b :
  valid_routing_number s ->
  String.get i s = Some a -> String.get (S i) s = Some b ->
  String.get i s' = Some b -> String.get (S i) s' = Some a ->
  (forall j, j <> i -> j <> S i -> String.get j s' = String.get j s) ->
  valid_routing_number s'
  <-> a = b \/ Z.abs (validators.byte a - validators.byte b) = 5.
Proof.
  intros Hs Ha Hb Ha' Hb' Hj.
  unfold valid_routing_number in *.
  destruct (validators.routingNumberRegex s) eqn:Hr;
    [|unfold validators.ValidateRoutingNumber in Hs; now rewrite Hr in Hs].
  apply routingNumberRegex_nine in Hr
    as (c0 & c1 & c2 & c3 & c4 & c5 & c6 & c7 & c8 & -> & Hd).
  rewrite ValidateRoutingNumber_nine in Hs by exact Hd.
  destruct (Z.eqb_spec (Z.rem (checksum c0 c1 c2 c3 c4 c5 c6 c7 c8) 10) 0) as [Hsum|];
    [clear Hs|discriminate].
  unfold nine in Ha, Hb, Hj.
  assert (Hi : (i < 8)%nat).
  { do 8 (destruct i as [|i]; [lia|]). cbn in Hb. discriminate. }
  digit_bounds.
  do 8 (destruct i as [|i];
        [ position Hj 0%nat; position Hj 1%nat; position Hj 2%nat; position Hj 3%nat;
          position Hj 4%nat; position Hj 5%nat; position Hj 6%nat; position Hj 7%nat;
          position Hj 8%nat; position Hj 9%nat; clear Hj;
          do 9 (destruct s' as [|? s']; [cbn in *; simplify_eq|]);
          (destruct s'; [|cbn in *; simplify_eq]);
          cbn in Ha, Hb, Ha', Hb'; cbn in *; simplify_eq;
          match goal with
          | |- context [validators.ValidateRoutingNumber
                 (String ?a0 (String ?a1 (String ?a2 (String ?a3 (String ?a4 (String ?a5
                    (String ?a6 (String ?a7 (String ?a8 EmptyString)))))))))] =>
              change (String a0 (String a1 (String a2 (String a3 (String a4 (String a5
                        (String a6 (String a7 (String a8 EmptyString)))))))))
                with (nine a0 a1 a2 a3 a4 a5 a6 a7 a8);
              rewrite (ValidateRoutingNumber_nine a0 a1 a2 a3 a4 a5 a6 a7 a8)
                by (repeat (apply List.Forall_cons; [assumption|]); apply List.Forall_nil);
              assert (Hkey : Z.rem (checksum a0 a1 a2 a3 a4 a5 a6 a7 a8) 10 = 0
                             <-> validators.byte a = validators.byte b
                                 \/ Z.abs (validators.byte a - validators.byte b) = 5)
                by (unfold checksum in *; Z.quot_rem_to_equations; lia);
              destruct (Z.eqb_spec (Z.rem (checksum a0 a1 a2 a3 a4 a5 a6 a7 a8) 10) 0)
                as [Hsum'|Hsum'];
              [ split; [intros _|reflexivity];
                destruct (proj1 Hkey Hsum') as [Heq|Hfive];
                [left; now apply byte_inj|now right]
              | split; [discriminate|];
                intros [Heq|Hfive]; exfalso; apply Hsum', Hkey;
                [left; now rewrite Heq|now right] ]
          end
        | ]).
  lia.
Qed.

(** ** SanitizeInput *)

Lemma last_rev {A} (l : list A) : last (rev l) = head l.
Proof. destruct l as [|x l]; [reflexivity|]. cbn [rev]. apply last_snoc. Qed.

Lemma head_rev {A} (l : list A) : head (rev l) = last l.
Proof. rewrite <- (rev_involutive l) at 2. symmetry. apply last_rev. Qed.

Section Trimming.

Variable f : validators.rune -> bool.

Lemma TrimLeftFunc_spec s :
  exists pre, s = pre ++ validators.TrimLeftFunc f s
              /\ Forall (fun r => f r = true) pre
              /\ match head (validators.TrimLeftFunc f s) with
                 | Some r => f r = false
                 | None => True
                 end.
Proof.
  induction s as [|r s (pre & Hs & Hpre & Hhead)]; [now exists []|].
  cbn [validators.TrimLeftFunc]. destruct (f r) eqn:Hr.
  - exists (r :: pre). cbn. rewrite <- Hs. repeat split; [|exact Hhead].
    now apply List.Forall_cons.
  - exists []. now repeat split.
Qed.

Lemma TrimLeftFunc_fixed s :
  match head s with Some r => f r = false | None => True end ->
  validators.TrimLeftFunc f s = s.
Proof. destruct s as [|r s]; [reflexivity|]. cbn. now intros ->. Qed.

Lemma TrimRightFunc_spec s :
  exists post, s = validators.TrimRightFunc f s ++ post
               /\ Forall (fun r => f r = true) post
               /\ match last (validators.TrimRightFunc f s) with
                  | Some r => f r = false
                  | None => True
                  end.
Proof.
  unfold validators.TrimRightFunc.
  destruct (TrimLeftFunc_spec (rev s)) as (pre & Hs & Hpre & Hhead).
  exists (rev pre). split; [|split].
  - rewrite <- rev_app_distr, <- Hs. now rewrite rev_involutive.
  - now apply Forall_rev.
  - now rewrite last_rev.
Qed.

Lemma TrimRightFunc_fixed s :
  match last s with Some r => f r = false | None => True end ->
  validators.TrimRightFunc f s = s.
Proof.
  intros Hlast. unfold validators.TrimRightFunc.
  rewrite TrimLeftFunc_fixed; [apply rev_involutive|].
  now rewrite head_rev.
Qed.

End Trimming.

Lemma TrimSpace_spec s :
  exists pre post,
    s = pre ++ validators.TrimSpace s ++ post
    /\ Forall (fun r => validators.IsSpace r = true) pre
    /\ Forall (fun r => validators.IsSpace r = true) post
    /\ trimmed (validators.TrimSpace s).
Proof.
  unfold validators.TrimSpace.
  destruct (TrimLeftFunc_spec validators.IsSpace s) as (pre & Hs & Hpre & Hhead).
  destruct (TrimRightFunc_spec validators.IsSpace (validators.TrimLeftFunc validators.IsSpace s))
    as (post & Ht & Hpost & Hlast).
  exists pre, post. split; [now rewrite <- Ht|]. split; [exact Hpre|]. split; [exact Hpost|].
  split; [|exact Hlast].
  rewrite Ht in Hhead.
  destruct (validators.TrimRightFunc _ _); [exact I|exact Hhead].
Qed.

Lemma TrimSpace_fixed s : trimmed s -> validators.TrimSpace s = s.
Proof.
  intros [Hhead Hlast]. unfold validators.TrimSpace.
  rewrite TrimLeftFunc_fixed by exact Hhead. now apply TrimRightFunc_fixed.
Qed.

Lemma Map_control input :
  validators.Map (fun r => if (r <? 32) && negb (r =? 10) && negb (r =? 13) && negb (r =? 9)
                           then -1 else r) input
  = List.filter (fun r => negb (control r)) input.
Proof.
  unfold validators.Map. induction input as [|r input IH]; [reflexivity|].
  cbn [map List.filter]. fold (control r). rewrite IH.
  destruct (control r) eqn:Hr; [reflexivity|].
  replace (0 <=? r) with true; [reflexivity|].
  unfold control in Hr. lia.
Qed.

Lemma kept_runes_are_printable input :
  Forall printable (List.filter (fun r => negb (control r)) input).
Proof.
  apply List.Forall_forall. intros r Hin. apply List.filter_In in Hin as [_ Hr].
  unfold control, printable in *. lia.
Qed.

Lemma printable_runes_are_kept out :
  Forall printable out -> List.filter (fun r => negb (control r)) out = out.
Proof.
  induction 1 as [|r out Hr Hall IH]; [reflexivity|].
  cbn [List.filter]. replace (negb (control r)) with true.
  - now rewrite IH.
  - unfold control, printable in *. lia.
Qed.

(** X13.  [SanitizeInput] returns the input without its control
    characters (tab, line feed and carriage return stay), less the white
    space at its two ends: what it returns has no control character and
    neither starts nor ends with white space. *)
Theorem SanitizeInput_strips_control_characters_and_outer_space input :
  exists pre post,
    List.filter (fun r => negb (control r)) input
    = pre ++ validators.SanitizeInput input ++ post
    /\ Forall (fun r => validators.IsSpace r = true) pre
    /\ Forall (fun r => validators.IsSpace r = true) post
    /\ trimmed (validators.SanitizeInput input)
    /\ Forall printable (validators.SanitizeInput input).
Proof.
  unfold validators.SanitizeInput. rewrite Map_control.
  destruct (TrimSpace_spec (List.filter (fun r => negb (control r)) input))
    as (pre & post & Hs & Hpre & Hpost & Htrim).
  exists pre, post. repeat (split; [assumption|]).
  pose proof (kept_runes_are_printable input) as Hall.
  rewrite Hs in Hall. apply Forall_app in Hall as [_ Hall].
  now apply Forall_app in Hall as [Hall _].
Qed.

(** X14.  Sanitizing twice is sanitizing once. *)
Theorem SanitizeInput_is_idempotent input :
  validators.SanitizeInput (validators.SanitizeInput input) = validators.SanitizeInput input.
Proof.
  unfold validators.SanitizeInput. rewrite !Map_control.
  destruct (TrimSpace_spec (List.filter (fun r => negb (control r)) input))
    as (pre & post & Hs & _ & _ & Htrim).
  pose proof (kept_runes_are_printable input) as Hall.
  rewrite Hs in Hall. apply Forall_app in Hall as [_ Hall].
  apply Forall_app in Hall as [Hall _].
  rewrite printable_runes_are_kept by exact Hall.
  now apply TrimSpace_fixed.
Qed.

(** 111000025 is accepted; with its last digit wrong it is refused. *)
Lemma wrong_last_digit_is_rejected :
  validators.ValidateRoutingNumber "111000026"
  = Some (validators.mkValidationError "routing_number" "Invalid routing number checksum").
Proof.
  apply (one_wrong_digit_is_rejected "111000025" "111000026" 8).
  - reflexivity.
  - intros j Hj. do 9 (destruct j as [|j]; [reflexivity || (exfalso; lia)|]). reflexivity.
  - discriminate.
Defined.

(** 160000005 is accepted, and so is 610000005. *)
Lemma swap_of_one_and_six_passes : valid_routing_number "610000005".
Proof.
  refine (proj2 (adjacent_transposition_passes_iff_digits_differ_by_five
                   "160000005" "610000005" 0 _ _ _ _ _ _ _ _) _).
  all: try reflexivity.
  - intros j Hj Hj'.
    do 9 (destruct j as [|j]; [reflexivity || (exfalso; lia)|]). reflexivity.
  - right. reflexivity.
Defined.
